(** * Sentences API (imports/api/sentences.js)

    A shallow embedding of the Meteor methods that [sentences.js] registers
    over the [Sentences] collection, and the properties of these methods.

    Conventions of the embedding.
    - Method arguments that the source passes to [check] arrive as untyped
      EJSON values ([value]); a successful check yields the typed content.
      Arguments that the source hands to the store unchecked are taken at
      the type the data model gives them (a document identifier is a
      string).
    - JavaScript numbers are modelled by the integers they denote. The one
      arithmetic operation of the source, [currentId + 1], is the addition
      of doubles: exact while the sum is at most 2^53 in magnitude, and
      rounded to the nearest double, ties to even, beyond ([js_add]).
    - A document of the collection is a record with the fields that
      [checkSentence] admits and the ones [sentences.insert] stamps; the
      collection is a finite map from [_id] to documents.
    - A method is a function from the state of the server (the [world]) to
      an outcome (normal return or thrown exception) and the state at that
      point, so that what a failing call leaves behind is part of the
      model. *)

From stdpp Require Import base option list strings gmap fin_maps.
From Stdlib Require Import ZArith Lia.

Set Warnings "-register-all".

Local Open Scope string_scope.
Local Open Scope Z_scope.

(** ** EJSON values and [check] patterns *)

Module Ejson.

(** What a client can send as a method argument. The fields of an object
    are kept in order; a key is looked up at its first binding. *)
Inductive value : Type :=
  | VUndefined
  | VNull
  | VBool (b : bool)
  | VNum (n : Z)
  | VStr (s : string)
  | VArr (items : list value)
  | VObj (fields : list (string * value)).

Fixpoint get (fields : list (string * value)) (key : string) : option value :=
  match fields with
  | [] => None
  | (k, v) :: rest => if String.eqb k key then Some v else get rest key
  end.

Definition keys (fields : list (string * value)) : list string :=
  map fst fields.

Definition has_key (ks : list string) (k : string) : bool :=
  existsb (String.eqb k) ks.

(** [check(v, String)] and [check(v, Number)]: a [typeof] test. *)
Definition check_String (v : value) : option string :=
  match v with VStr s => Some s | _ => None end.

Definition check_Number (v : value) : option Z :=
  match v with VNum n => Some n | _ => None end.

(** [check(v, [p])]: an array each of whose items matches [p]. *)
Definition check_Array {A} (p : value → option A) (v : value) : option (list A) :=
  match v with VArr items => mapM p items | _ => None end.

(** [check(v, {k1: _, ..., kn: _})]: an object with exactly the keys of the
    pattern: a key outside the pattern is an unknown key, a key of the
    pattern that the object lacks is a missing key. *)
Definition check_Object (pattern_keys : list string) (v : value)
  : option (list (string * value)) :=
  match v with
  | VObj fields =>
      if forallb (has_key pattern_keys) (keys fields)
         && forallb (has_key (keys fields)) pattern_keys
      then Some fields else None
  | _ => None
  end.

(** The field [key] of a checked object, matched against [p]. *)
Definition field {A} (p : value → option A) (fields : list (string * value))
    (key : string) : option A :=
  get fields key ≫= p.

End Ejson.
Export Ejson.

(** ** The data model *)

(** An entry of [spanAnnotations]: [{type, begin, end}]. *)
Record spanAnnotation : Type := SpanAnnotation {
  span_type : string;
  span_begin : Z;
  span_end : Z
}.

(** The [value] of an entry of [annotations]: [{begin, end}]. The store
    keeps an embedded document as it was sent and compares embedded
    documents field by field in their order, so the order of the two keys
    is part of the value: [begin_first] tells whether [begin] comes before
    [end]. *)
Record range : Type := Range {
  range_begin : Z;
  range_end : Z;
  begin_first : bool
}.

(** An entry of [annotations]: [{type, value: {begin, end}}]. *)
Record annotation : Type := Annotation {
  ann_type : string;
  ann_value : range
}.

(** The content of a value that passes [checkSentence]. *)
Record sentenceFields : Type := SentenceFields {
  sf_sentence : string;
  sf_annotations : list annotation;
  sf_spanAnnotations : list spanAnnotation;
  sf_zScore : Z
}.

(** A document of the [sentences] collection. [readableId] is absent on a
    document that was not created by [sentences.insert]. *)
Record sentenceDoc : Type := SentenceDoc {
  _id : string;
  sentence : string;
  annotations : list annotation;
  spanAnnotations : list spanAnnotation;
  zScore : Z;
  readableId : option Z;
  createdAt : Z;
  owner : option string;
  username : option string
}.

(** A document of [Meteor.users]; the accounts system does not require a
    user name. *)
Record user : Type := User {
  user_username : option string
}.

#[global] Instance spanAnnotation_eq_dec : EqDecision spanAnnotation.
Proof. solve_decision. Defined.
#[global] Instance range_eq_dec : EqDecision range.
Proof. solve_decision. Defined.
#[global] Instance annotation_eq_dec : EqDecision annotation.
Proof. solve_decision. Defined.

(** ** [checkSentence] (lines 17-38) *)

(** Whether [key] is the first key of an object. *)
Definition first_key_is (key : string) (fields : list (string * value))
  : bool :=
  match fields with
  | (k, _) :: _ => String.eqb k key
  | [] => false
  end.

Definition check_range (v : value) : option range :=
  o ← check_Object ["begin"; "end"] v;
  b ← field check_Number o "begin";
  e ← field check_Number o "end";
  Some (Range b e (first_key_is "begin" o)).

Definition check_annotation (v : value) : option annotation :=
  o ← check_Object ["type"; "value"] v;
  t ← field check_String o "type";
  r ← field check_range o "value";
  Some (Annotation t r).

Definition check_spanAnnotation (v : value) : option spanAnnotation :=
  o ← check_Object ["type"; "begin"; "end"] v;
  t ← field check_String o "type";
  b ← field check_Number o "begin";
  e ← field check_Number o "end";
  Some (SpanAnnotation t b e).

Definition checkSentence (v : value) : option sentenceFields :=
  o ← check_Object ["sentence"; "annotations"; "spanAnnotations"; "zScore"] v;
  s ← field check_String o "sentence";
  a ← field (check_Array check_annotation) o "annotations";
  sp ← field (check_Array check_spanAnnotation) o "spanAnnotations";
  z ← field check_Number o "zScore";
  Some (SentenceFields s a sp z).

(** ** The server state and the method monad *)

(** The result object that [HTTP.call] passes to its callback. *)
Record httpResponse : Type := HttpResponse {
  statusCode : Z;
  content : string
}.

(** A line of the server console. *)
Inductive logEntry : Type :=
  | LogResponse (err : option string) (resp : option httpResponse)
  | LogTsv (rows : list (list string)).

(** [Sentences] is the collection declared at line 7, [users] is
    [Meteor.users]; [console] collects what [console.log] prints and
    [http_pending] the requests whose callback has not run yet. *)
Record world : Type := World {
  Sentences : gmap string sentenceDoc;
  users : gmap string user;
  console : list logEntry;
  http_pending : list string
}.

(** The exceptions a method can throw. [Meteor.Error] carries its error
    code; [Match.Error] is what a failed [check] throws. *)
Inductive exn : Type :=
  | MeteorError (code : string)
  | MatchError
  | ReferenceError (identifier : string)
  | TypeError
  | DuplicateKeyError (id : string).

Definition not_authorized : exn := MeteorError "not-authorized".

Inductive outcome (A : Type) : Type :=
  | Return (a : A)
  | Throw (e : exn).
Arguments Return {A} a.
Arguments Throw {A} e.

Definition method (A : Type) : Type := world → outcome A * world.

Definition ret {A} (a : A) : method A := λ w, (Return a, w).
Definition throw {A} (e : exn) : method A := λ w, (Throw e, w).
Definition bind {A B} (m : method A) (k : A → method B) : method B :=
  λ w, match m w with
       | (Return a, w') => k a w'
       | (Throw e, w') => (Throw e, w')
       end.

#[global] Instance method_ret : MRet method := @ret.
#[global] Instance method_bind : MBind method := λ A B k m, bind m k.

(** [check(v, p)] as a statement: throws [Match.Error] on a mismatch. *)
Definition check {A} (p : value → option A) (v : value) : method A :=
  match p v with
  | Some a => ret a
  | None => throw MatchError
  end.

(** What the framework and the runtime supply to one invocation: [userId]
    is [this.userId] ([None] for [null]); [isServer] is [Meteor.isServer];
    [now] is the value of [new Date()]; [randomId] is the [_id] that
    [Sentences.insert] generates for a document without one; [defaultUrl]
    is [Meteor.settings.public.defaultUrl]. *)
Record invocation : Type := Invocation {
  userId : option string;
  isServer : bool;
  now : Z;
  randomId : string;
  defaultUrl : option string
}.

(** JavaScript truthiness of a string-or-absent value: [!x] is [true] for
    [null], [undefined] and the empty string. *)
Definition truthy_string (x : option string) : bool :=
  match x with
  | Some s => negb (String.eqb s "")
  | None => false
  end.

(** ** The store operations the methods call *)

Module Mongo.

(** The order of a sort on [readableId]: a missing field sorts below every
    number. *)
Definition key_ltb (a b : option Z) : bool :=
  match a, b with
  | None, None => false
  | None, Some _ => true
  | Some _, None => false
  | Some x, Some y => x <? y
  end.

(** [Sentences.findOne({}, { sort: { readableId: -1 } })]: a document
    whose [readableId] is highest in the sort order, [None] for
    [undefined] on an empty collection. *)
Definition first_desc (docs : list sentenceDoc) : option sentenceDoc :=
  foldr (λ d acc,
           match acc with
           | None => Some d
           | Some a => if key_ltb (readableId a) (readableId d)
                       then Some d else Some a
           end) None docs.

Definition findOne_sort_readableId_desc : method (option sentenceDoc) :=
  λ w, (Return (first_desc (map_to_list (Sentences w)).*2), w).

(** [Meteor.users.findOne(id)]. *)
Definition users_findOne (id : option string) : method (option user) :=
  λ w, (Return (id ≫= λ i, users w !! i), w).

Definition set_Sentences (m : gmap string sentenceDoc) (w : world) : world :=
  World m (users w) (console w) (http_pending w).

(** [Sentences.insert(doc)]: the store refuses a second document with the
    same [_id]. *)
Definition insert (doc : sentenceDoc) : method unit :=
  λ w, match Sentences w !! _id doc with
       | Some _ => (Throw (DuplicateKeyError (_id doc)), w)
       | None => (Return tt, set_Sentences (<[_id doc := doc]> (Sentences w)) w)
       end.

(** [Sentences.remove(id)]: no error when no document has this [_id]. *)
Definition remove (id : string) : method unit :=
  λ w, (Return tt, set_Sentences (delete id (Sentences w)) w).

(** [Sentences.update(id, modifier)] and
    [Sentences.update({ _id: id }, modifier)]: the modifier is applied to
    the document with this [_id], if there is one. *)
Definition update (id : string) (modifier : sentenceDoc → sentenceDoc)
  : method unit :=
  λ w, (Return tt, set_Sentences (alter modifier id (Sentences w)) w).

Definition set_spanAnnotations (l : list spanAnnotation) (d : sentenceDoc)
  : sentenceDoc :=
  SentenceDoc (_id d) (sentence d) (annotations d) l (zScore d)
              (readableId d) (createdAt d) (owner d) (username d).

Definition set_annotations (l : list annotation) (d : sentenceDoc)
  : sentenceDoc :=
  SentenceDoc (_id d) (sentence d) l (spanAnnotations d) (zScore d)
              (readableId d) (createdAt d) (owner d) (username d).

(** [{ $push: { spanAnnotations: a } }]. *)
Definition push_spanAnnotations (a : spanAnnotation) (d : sentenceDoc)
  : sentenceDoc :=
  set_spanAnnotations (spanAnnotations d ++ [a]) d.

(** The condition [{ type, begin, end }] of a [$pull] on an entry of
    [spanAnnotations]: each of the three fields equals the given value. *)
Definition span_matches (type : string) (begin end_ : Z) (a : spanAnnotation)
  : bool :=
  String.eqb (span_type a) type
  && (span_begin a =? begin) && (span_end a =? end_).

(** [{ $pull: { spanAnnotations: { type, begin, end } } }]. *)
Definition pull_spanAnnotations (type : string) (begin end_ : Z)
    (d : sentenceDoc) : sentenceDoc :=
  set_spanAnnotations
    (List.filter (λ a, negb (span_matches type begin end_ a))
                 (spanAnnotations d)) d.

(** The condition [{ type, value }] on an entry of [annotations]: the
    [type] of the entry equals [type] and its [value] is the same embedded
    document as [value], with the same fields in the same order. *)
Definition annotation_matches (type : string) (value : range) (a : annotation)
  : bool :=
  String.eqb (ann_type a) type
  && (range_begin (ann_value a) =? range_begin value)
  && (range_end (ann_value a) =? range_end value)
  && Bool.eqb (begin_first (ann_value a)) (begin_first value).

(** [{ $pull: { annotations: { type, value } } }]. *)
Definition pull_annotations (type : string) (value : range) (d : sentenceDoc)
  : sentenceDoc :=
  set_annotations
    (List.filter (λ a, negb (annotation_matches type value a))
                 (annotations d)) d.

End Mongo.

(** ** The HTTP client and the console *)

Definition set_console (l : list logEntry) (w : world) : world :=
  World (Sentences w) (users w) l (http_pending w).

Definition set_http_pending (l : list string) (w : world) : world :=
  World (Sentences w) (users w) (console w) l.

Definition console_log (e : logEntry) : method unit :=
  λ w, (Return tt, set_console (console w ++ [e]) w).

(** [HTTP.call("GET", url, {}, callback)]: with a callback the call is
    asynchronous; the request is issued and the call returns. How the
    client library treats a url that it does not accept is outside the
    module and is not modelled. *)
Definition HTTP_call_GET (url : string) : method unit :=
  λ w, (Return tt, set_http_pending (http_pending w ++ [url]) w).

(** [String(x)] of a string-or-undefined value, as [+] applies it. *)
Definition to_String (x : option string) : string :=
  default "undefined" x.

(** ** Numbers *)

(** [Number.MAX_SAFE_INTEGER]. *)
Definition MAX_SAFE_INTEGER : Z := 2 ^ 53 - 1.

(** The double nearest to the integer [z]. Every integer up to 2^53 in
    magnitude is a double; a larger double is a 53-bit integer [q] times a
    power of two, and an integer between two doubles goes to the nearer
    one, to the one with even [q] when it is half-way. *)
Definition round_double (z : Z) : Z :=
  let a := Z.abs z in
  if a <=? 2 ^ 53 then z
  else
    let sh := Z.log2 a - 52 in
    let q := Z.shiftr a sh in
    let r := a - Z.shiftl q sh in
    let half := Z.shiftl 1 (sh - 1) in
    let q' := if (half <? r) || ((r =? half) && Z.odd q) then q + 1 else q in
    Z.sgn z * Z.shiftl q' sh.

(** [a + b] on two integer-valued doubles. *)
Definition js_add (a b : Z) : Z := round_double (a + b).

(** ** The methods (lines 40-111) *)

(** [(x) || 0] for a number-or-undefined [x]: 0 is falsy. *)
Definition or_zero (x : option Z) : Z :=
  match x with
  | Some n => if n =? 0 then 0 else n
  | None => 0
  end.

(** Lines 41-59. *)
Definition sentences_insert (this : invocation) (sentence_ : value)
  : method unit :=
  s ← check checkSentence sentence_;
  if negb (truthy_string (userId this)) then throw not_authorized else
  lastDoc ← Mongo.findOne_sort_readableId_desc;
  let currentId := or_zero (lastDoc ≫= readableId) in
  let createdAt_ := now this in
  u ← Mongo.users_findOne (userId this);
  username_ ← match u with
               | Some u => mret (user_username u)
               | None => throw TypeError
               end;
  Mongo.insert {|
    _id := randomId this;
    sentence := sf_sentence s;
    annotations := sf_annotations s;
    spanAnnotations := sf_spanAnnotations s;
    zScore := sf_zScore s;
    readableId := Some (js_add currentId 1);
    createdAt := createdAt_;
    owner := userId this;
    username := username_
  |}.

(** Lines 60-62. The method does not check its argument; it is taken as
    what the data model says it is, a document id. *)
Definition sentences_remove (this : invocation) (sentenceId : string)
  : method unit :=
  Mongo.remove sentenceId.

(** The identifiers that the module binds: the imports of lines 1-5, the
    constant of line 7 and the function of line 17. *)
Definition module_scope : list string :=
  ["Meteor"; "HTTP"; "Mongo"; "check"; "TSV"; "Sentences"; "checkSentence"].

(** Evaluation of an identifier of the module: an unbound one throws. *)
Definition resolve (identifier : string) : method unit :=
  if has_key module_scope identifier then mret tt
  else throw (ReferenceError identifier).

(** Lines 63-67. The receiver of the call is the identifier [Sentence];
    the modifier [{ $push: { type, value } }] names the fields [type] and
    [value], neither of which is a field of the data model, so that a call
    that reached the store would leave the fields of the model as they
    are. *)
Definition sentences_addAnnotation (this : invocation) (sentenceId : string)
    (type : string) (value_ : range) : method unit :=
  _ ← resolve "Sentence";
  Mongo.update sentenceId (λ d, d).

(** Lines 68-77. The method does not check its arguments; they are taken
    as what the data model says they are: an id, the type and the value of
    an annotation. *)
Definition sentences_removeAnnotation (this : invocation)
    (sentenceId : string) (type : string) (value_ : range) : method unit :=
  Mongo.update sentenceId (Mongo.pull_annotations type value_).

(** Lines 78-86. *)
Definition sentences_addSpanAnnotation (this : invocation)
    (sentenceId type begin end_ : value) : method unit :=
  id ← check check_String sentenceId;
  b ← check check_Number begin;
  e ← check check_Number end_;
  t ← check check_String type;
  Mongo.update id (Mongo.push_spanAnnotations (SpanAnnotation t b e)).

(** Lines 87-100. *)
Definition sentences_removeSpanAnnotation (this : invocation)
    (sentenceId type begin end_ : value) : method unit :=
  id ← check check_String sentenceId;
  b ← check check_Number begin;
  e ← check check_Number end_;
  t ← check check_String type;
  Mongo.update id (Mongo.pull_spanAnnotations t b e).

(** Lines 101-110, the part that runs within the call. *)
Definition sentences_importFromTsv (this : invocation) (url : option string)
    (filename : string) : method unit :=
  let url := if truthy_string url then url else defaultUrl this in
  if isServer this
  then HTTP_call_GET (to_String url ++ "/" ++ filename)
  else mret tt.

(** Lines 104-108, the callback, which runs when the request completes
    with [err] and [resp]. [TSV_parse] is [TSV.parse] of the [tsv]
    package, [None] when it throws. *)
Definition importFromTsv_callback
    (TSV_parse : option httpResponse → option (list (list string)))
    (err : option string) (resp : option httpResponse) : method unit :=
  _ ← console_log (LogResponse err resp);
  tsv ← match TSV_parse resp with
         | Some rows => mret rows
         | None => throw TypeError
         end;
  console_log (LogTsv tsv).

(** Completion of the oldest pending request: its callback runs. *)
Definition HTTP_complete
    (TSV_parse : option httpResponse → option (list (list string)))
    (err : option string) (resp : option httpResponse) : method unit :=
  λ w, match http_pending w with
       | [] => (Return tt, w)
       | _ :: rest =>
           importFromTsv_callback TSV_parse err resp (set_http_pending rest w)
       end.

(** * Properties *)

(** ** Vocabulary of the statements *)

(** [n] is the highest [readableId] present in the collection. *)
Definition is_max_readableId (m : gmap string sentenceDoc) (n : Z) : Prop :=
  (∃ i d, m !! i = Some d ∧ readableId d = Some n) ∧
  (∀ i d k, m !! i = Some d → readableId d = Some k → k ≤ n).

(** The current id that [sentences.insert] computes at lines 49-50. *)
Definition currentId (m : gmap string sentenceDoc) : Z :=
  or_zero (Mongo.first_desc (map_to_list m).*2 ≫= readableId).

(** Every [readableId] of the collection is below [bound] in magnitude. *)
Definition readableIds_below (m : gmap string sentenceDoc) (bound : Z)
  : Prop :=
  ∀ i d n, m !! i = Some d → readableId d = Some n → Z.abs n < bound.

(** The caller is logged in: [this.userId] is set, and it is the [_id] of
    a document of [Meteor.users], as the accounts system maintains. *)
Definition logged_in (this : invocation) (w : world) : Prop :=
  ∃ uid u, userId this = Some uid ∧ uid ≠ "" ∧ users w !! uid = Some u.

(** [w'] is [w] with the one new document [d] in the collection. *)
Definition inserted (w w' : world) (d : sentenceDoc) : Prop :=
  Sentences w !! _id d = None ∧
  w' = Mongo.set_Sentences (<[_id d := d]> (Sentences w)) w.

Definition is_string (v : value) : Prop := ∃ s, v = VStr s.
Definition is_number (v : value) : Prop := ∃ n, v = VNum n.

(** ** The sort lookup *)

Section first_desc.
Import Mongo.

Lemma key_ltb_irrefl a : key_ltb a a = false.
Proof. destruct a as [x|]; simpl; [apply Z.ltb_irrefl | done]. Qed.

Lemma key_ltb_false_le a b k n :
  key_ltb a b = false → a = Some n → b = Some k → k ≤ n.
Proof. intros H -> ->. simpl in H. lia. Qed.

Lemma key_ltb_false_None a k :
  key_ltb a (Some k) = false → is_Some a.
Proof. destruct a; [eauto | done]. Qed.

Lemma key_ltb_false_trans a b c :
  key_ltb a b = false → key_ltb b c = false → key_ltb a c = false.
Proof.
  destruct a, b, c; simpl; try done; rewrite !Z.ltb_ge; lia.
Qed.

Lemma key_ltb_true_false a b : key_ltb a b = true → key_ltb b a = false.
Proof. destruct a, b; simpl; try done. rewrite Z.ltb_lt, Z.ltb_ge. lia. Qed.

Lemma first_desc_nil_iff docs : first_desc docs = None ↔ docs = [].
Proof.
  destruct docs as [|d docs]; simpl; [done |].
  split; [| done]. by destruct (first_desc docs); [case_match |].
Qed.

(** The document found is in the list and no document of the list comes
    before it in the descending order. *)
Lemma first_desc_Some docs d :
  first_desc docs = Some d →
  d ∈ docs ∧ ∀ d', d' ∈ docs → key_ltb (readableId d) (readableId d') = false.
Proof.
  revert d. induction docs as [|x docs IH]; intros d; simpl; [done |].
  destruct (first_desc docs) as [a|] eqn:Ha.
  - destruct (IH a eq_refl) as [Hin Hmax].
    destruct (key_ltb (readableId a) (readableId x)) eqn:Hlt;
      intros [= <-]; split.
    + left.
    + intros d' [-> | Hd']%elem_of_cons; [apply key_ltb_irrefl |].
      eapply key_ltb_false_trans; [| by apply Hmax].
      by apply key_ltb_true_false.
    + by right.
    + intros d' [-> | Hd']%elem_of_cons; [done | by apply Hmax].
  - apply first_desc_nil_iff in Ha as ->. intros [= <-]. split; [left |].
    intros d' [-> | Hd']%elem_of_cons; [apply key_ltb_irrefl |].
    by apply elem_of_nil in Hd'.
Qed.
End first_desc.

Lemma elem_of_docs (m : gmap string sentenceDoc) d :
  d ∈ (map_to_list m).*2 ↔ ∃ i, m !! i = Some d.
Proof.
  rewrite list_elem_of_fmap. split.
  - intros [[i x] [-> H%elem_of_map_to_list]]. eauto.
  - intros [i H]. exists (i, d). by rewrite elem_of_map_to_list.
Qed.

Lemma currentId_max m n : is_max_readableId m n → currentId m = n.
Proof.
  intros [(i & d & Hd & Hn) Hmax]. unfold currentId.
  destruct (Mongo.first_desc _) as [a|] eqn:Ha.
  - apply first_desc_Some in Ha as [[j Hj]%elem_of_docs Hle]. simpl.
    assert (Hd' : d ∈ (map_to_list m).*2) by (apply elem_of_docs; eauto).
    specialize (Hle d Hd'). rewrite Hn in Hle.
    destruct (key_ltb_false_None _ _ Hle) as [k Hk].
    pose proof (key_ltb_false_le _ _ _ _ Hle Hk eq_refl).
    pose proof (Hmax j a k Hj Hk).
    rewrite Hk. simpl. destruct (Z.eqb_spec k 0); lia.
  - apply first_desc_nil_iff in Ha.
    assert (Hd' : d ∈ (map_to_list m).*2) by (apply elem_of_docs; eauto).
    rewrite Ha in Hd'. by apply elem_of_nil in Hd'.
Qed.

Lemma currentId_zero m :
  (∀ i d, m !! i = Some d → readableId d = None ∨ readableId d = Some 0) →
  currentId m = 0.
Proof.
  intros H. unfold currentId.
  destruct (Mongo.first_desc _) as [a|] eqn:Ha; [| done].
  apply first_desc_Some in Ha as [[j Hj]%elem_of_docs _]. simpl.
  by destruct (H j a Hj) as [-> | ->].
Qed.

(** Every [readableId] of the collection is at most the current id. *)
Lemma currentId_upper m i d k :
  m !! i = Some d → readableId d = Some k → k ≤ currentId m.
Proof.
  intros Hd Hk. unfold currentId.
  assert (Hd' : d ∈ (map_to_list m).*2) by (apply elem_of_docs; eauto).
  destruct (Mongo.first_desc _) as [a|] eqn:Ha.
  - apply first_desc_Some in Ha as [_ Hle]. specialize (Hle d Hd').
    rewrite Hk in Hle. destruct (key_ltb_false_None _ _ Hle) as [n Hn].
    pose proof (key_ltb_false_le _ _ _ _ Hle Hn eq_refl).
    simpl. rewrite Hn. simpl. destruct (Z.eqb_spec n 0); lia.
  - apply first_desc_nil_iff in Ha. rewrite Ha in Hd'.
    by apply elem_of_nil in Hd'.
Qed.

(** After a document with the next id is added, that id is the current
    one. *)
Lemma currentId_insert m i d :
  m !! i = None → readableId d = Some (currentId m + 1) →
  currentId (<[i := d]> m) = currentId m + 1.
Proof.
  intros Hi Hd. apply currentId_max. split.
  - exists i, d. by rewrite lookup_insert_eq.
  - intros j x k Hj Hk. destruct (decide (i = j)) as [-> | Hne].
    + rewrite lookup_insert_eq in Hj. injection Hj as <-.
      rewrite Hd in Hk. injection Hk as <-. lia.
    + rewrite lookup_insert_ne in Hj by done.
      pose proof (currentId_upper _ _ _ _ Hj Hk). lia.
Qed.

(** ** The addition of line 54 *)

Lemma round_double_exact z : Z.abs z ≤ 2 ^ 53 → round_double z = z.
Proof.
  intros H. unfold round_double.
  by destruct (Z.leb_spec (Z.abs z) (2 ^ 53)); [| lia].
Qed.

Lemma js_add_one_exact c : Z.abs c ≤ MAX_SAFE_INTEGER → js_add c 1 = c + 1.
Proof.
  unfold MAX_SAFE_INTEGER, js_add. intros H. apply round_double_exact. lia.
Qed.

(** Rounding keeps a positive integer positive. *)
Lemma round_double_pos z : 1 ≤ z → 1 ≤ round_double z.
Proof.
  intros Hz. unfold round_double.
  destruct (Z.leb_spec (Z.abs z) (2 ^ 53)) as [| Hbig]; [done |].
  rewrite Z.abs_eq in * by lia. rewrite Z.sgn_pos by lia.
  assert (H53 : 53 ≤ Z.log2 z).
  { rewrite <- (Z.log2_pow2 53) by lia. apply Z.log2_le_mono. lia. }
  set (sh := Z.log2 z - 52). assert (Hsh : 0 ≤ sh) by (unfold sh; lia).
  assert (Hp : 0 < 2 ^ sh) by (apply Z.pow_pos_nonneg; lia).
  assert (Hle : 2 ^ sh ≤ z).
  { transitivity (2 ^ Z.log2 z).
    - apply Z.pow_le_mono_r; unfold sh; lia.
    - apply Z.log2_spec. lia. }
  assert (Hq : 1 ≤ Z.shiftr z sh).
  { rewrite Z.shiftr_div_pow2 by done.
    apply Z.div_le_lower_bound; lia. }
  set (q := Z.shiftr z sh) in *.
  match goal with |- context [if ?c then q + 1 else q] =>
    set (q' := if c then q + 1 else q) end.
  assert (Hq' : 1 ≤ q') by (unfold q'; case_match; lia).
  rewrite Z.shiftl_mul_pow2 by done. nia.
Qed.

Lemma js_add_one_pos c : 0 ≤ c → 1 ≤ js_add c 1.
Proof. intros H. apply round_double_pos. lia. Qed.

(** The current id is 0 or a [readableId] of the collection. *)
Lemma currentId_cases m :
  currentId m = 0 ∨ ∃ i d, m !! i = Some d ∧ readableId d = Some (currentId m).
Proof.
  unfold currentId.
  destruct (Mongo.first_desc _) as [a|] eqn:Ha; [| by left].
  apply first_desc_Some in Ha as [[j Hj]%elem_of_docs _]. simpl.
  destruct (readableId a) as [k|] eqn:Hk; [| by left]. simpl.
  destruct (Z.eqb_spec k 0); [by left | right; eauto].
Qed.

Lemma currentId_below m bound :
  0 < bound → readableIds_below m bound → Z.abs (currentId m) < bound.
Proof.
  intros Hb H. destruct (currentId_cases m) as [-> | (i & d & Hd & Hn)].
  - simpl. lia.
  - by eapply H.
Qed.

(** ** Running the methods *)

Ltac run_method :=
  unfold mbind, method_bind, bind, mret, method_ret, ret, throw, check,
    Mongo.findOne_sort_readableId_desc, Mongo.users_findOne, Mongo.insert,
    Mongo.remove, Mongo.update, resolve, console_log, HTTP_call_GET;
  simpl.

(** The document that a successful [sentences.insert] stores. *)
Definition new_document (this : invocation) (s : sentenceFields) (u : user)
    (w : world) : sentenceDoc :=
  {| _id := randomId this;
     sentence := sf_sentence s;
     annotations := sf_annotations s;
     spanAnnotations := sf_spanAnnotations s;
     zScore := sf_zScore s;
     readableId := Some (js_add (currentId (Sentences w)) 1);
     createdAt := now this;
     owner := userId this;
     username := user_username u |}.

(** A well-shaped sentence from a logged-in caller is stored, provided
    the generated [_id] is not taken. *)
Lemma sentences_insert_ok this v s w :
  checkSentence v = Some s → logged_in this w →
  Sentences w !! randomId this = None →
  ∃ u, sentences_insert this v w =
         (Return tt,
          Mongo.set_Sentences
            (<[randomId this := new_document this s u w]> (Sentences w)) w).
Proof.
  intros Hs (uid & u & Hid & Hne & Hu) Hfresh. exists u.
  unfold sentences_insert. run_method. rewrite Hs, Hid. simpl.
  apply String.eqb_neq in Hne. rewrite Hne. simpl.
  rewrite Hu. simpl. rewrite Hfresh.
  unfold new_document, currentId. by rewrite Hid.
Qed.

(** A call without a truthy [this.userId] stops at line 46 when the shape
    check passed, and at line 42 otherwise. *)
Lemma sentences_insert_anonymous this v w :
  truthy_string (userId this) = false →
  sentences_insert this v w =
    (Throw (match checkSentence v with
            | Some _ => not_authorized
            | None => MatchError
            end), w).
Proof.
  intros Hu. unfold sentences_insert. run_method.
  destruct (checkSentence v); simpl; [| done]. by rewrite Hu.
Qed.

(** Conversely, a call that returns has passed the shape check, comes from
    a logged-in caller and has stored the new document under an unused
    [_id]. *)
Lemma sentences_insert_returns this v w w' :
  sentences_insert this v w = (Return tt, w') →
  ∃ s u, checkSentence v = Some s ∧ logged_in this w ∧
         Sentences w !! randomId this = None ∧
         w' = Mongo.set_Sentences
                (<[randomId this := new_document this s u w]> (Sentences w)) w.
Proof.
  unfold sentences_insert. run_method.
  destruct (checkSentence v) as [s|] eqn:Hs; simpl; [| done].
  destruct (userId this) as [uid|] eqn:Hid; simpl; [| done].
  destruct (String.eqb_spec uid ""); simpl; [done |].
  destruct (users w !! uid) as [u|] eqn:Hu; simpl; [| done].
  destruct (Sentences w !! randomId this) eqn:Hf; [done |].
  intros [= <-]. exists s, u. repeat split; [by exists uid, u |].
  unfold new_document, currentId. by rewrite Hid.
Qed.

Lemma logged_in_set_Sentences this w m :
  logged_in this w → logged_in this (Mongo.set_Sentences m w).
Proof. done. Qed.

(** ** Claims about [sentences.insert] *)

Example round_double_examples :
  round_double (2 ^ 53 - 1) = 2 ^ 53 - 1 ∧
  round_double (2 ^ 53 + 1) = 2 ^ 53 ∧
  round_double (2 ^ 53 + 2) = 2 ^ 53 + 2 ∧
  round_double (2 ^ 53 + 3) = 2 ^ 53 + 4 ∧
  round_double (2 ^ 54 + 2) = 2 ^ 54 ∧
  round_double (2 ^ 54 + 6) = 2 ^ 54 + 8 ∧
  round_double (- (2 ^ 53) - 1) = - (2 ^ 53) ∧
  js_add (2 ^ 53) 1 = 2 ^ 53 ∧ js_add 0 1 = 1.
Proof. repeat split; vm_compute; reflexivity. Qed.

(** The [readableId] of the new document while the current id is safe. *)
Lemma new_document_readableId this s u w :
  Z.abs (currentId (Sentences w)) ≤ MAX_SAFE_INTEGER →
  readableId (new_document this s u w) = Some (currentId (Sentences w) + 1).
Proof. intros H. simpl. by rewrite js_add_one_exact. Qed.

(** The collection in which the highest [readableId] is
    [Number.MAX_SAFE_INTEGER]. *)
Definition at_the_limit : world :=
  World {["s0" := SentenceDoc "s0" "old" [] [] 0 (Some MAX_SAFE_INTEGER) 0
                    (Some "u1") None]}
        {["u1" := User None]} [] [].

(** C1, as stated, fails: next to a document whose [readableId] is 2^53-1
    the first call stamps 2^53, and the second call stamps 2^53 again,
    because 2^53 + 1 is not a double and the sum is rounded to 2^53. *)
Lemma insert_readableId_not_consecutive_at_limit :
  ¬ (∀ (this1 this2 : invocation) (v1 v2 : value) (w w1 w2 : world)
       (d1 d2 : sentenceDoc) (r : Z),
       sentences_insert this1 v1 w = (Return tt, w1) →
       sentences_insert this2 v2 w1 = (Return tt, w2) →
       inserted w w1 d1 → inserted w1 w2 d2 →
       readableId d1 = Some r → readableId d2 = Some (r + 1)).
Proof.
  intros H.
  pose (v := VObj [("sentence", VStr "a"); ("annotations", VArr []);
                   ("spanAnnotations", VArr []); ("zScore", VNum 0)]).
  pose (s := SentenceFields "a" [] [] 0).
  pose (this1 := Invocation (Some "u1") true 0 "s1" None).
  pose (this2 := Invocation (Some "u1") true 0 "s2" None).
  pose (d1 := new_document this1 s (User None) at_the_limit).
  pose (w1 := Mongo.set_Sentences (<["s1" := d1]> (Sentences at_the_limit))
                at_the_limit).
  pose (d2 := new_document this2 s (User None) w1).
  pose (w2 := Mongo.set_Sentences (<["s2" := d2]> (Sentences w1)) w1).
  assert (E1 : sentences_insert this1 v at_the_limit = (Return tt, w1))
    by (vm_compute; reflexivity).
  assert (E2 : sentences_insert this2 v w1 = (Return tt, w2))
    by (vm_compute; reflexivity).
  assert (I1 : inserted at_the_limit w1 d1) by (split; reflexivity).
  assert (I2 : inserted w1 w2 d2) by (split; reflexivity).
  assert (R1 : readableId d1 = Some (2 ^ 53)) by (vm_compute; reflexivity).
  assert (R2 : readableId d2 = Some (2 ^ 53)) by (vm_compute; reflexivity).
  specialize (H this1 this2 v v at_the_limit w1 w2 d1 d2 (2 ^ 53)
                E1 E2 I1 I2 R1).
  rewrite R2 in H. discriminate H.
Qed.

(** C1, amended. In a collection whose [readableId]s are all below
    [Number.MAX_SAFE_INTEGER] = 2^53-1 in magnitude, two sequential calls
    of [sentences.insert] by logged-in callers with well-shaped sentences
    both store a document, and the [readableId] of the second document is
    the [readableId] of the first plus one; the [readableId] of a stored
    document is one plus the highest [readableId] present in the
    collection before the call. *)
Theorem insert_readableId_consecutive
    (this1 this2 : invocation) (v1 v2 : value) (w : world) :
  readableIds_below (Sentences w) MAX_SAFE_INTEGER →
  is_Some (checkSentence v1) → is_Some (checkSentence v2) →
  logged_in this1 w → logged_in this2 w →
  Sentences w !! randomId this1 = None →
  Sentences w !! randomId this2 = None →
  randomId this1 ≠ randomId this2 →
  ∃ w1 w2 d1 d2 r,
    sentences_insert this1 v1 w = (Return tt, w1) ∧
    sentences_insert this2 v2 w1 = (Return tt, w2) ∧
    inserted w w1 d1 ∧ inserted w1 w2 d2 ∧
    readableId d1 = Some r ∧ readableId d2 = Some (r + 1) ∧
    (∀ n, is_max_readableId (Sentences w) n → r = n + 1) ∧
    (∀ n, is_max_readableId (Sentences w1) n → r + 1 = n + 1).
Proof.
  intros Hsafe [s1 Hs1] [s2 Hs2] Hin1 Hin2 Hf1 Hf2 Hne.
  assert (Hc : Z.abs (currentId (Sentences w)) < MAX_SAFE_INTEGER)
    by (by apply currentId_below).
  destruct (sentences_insert_ok this1 v1 s1 w Hs1 Hin1 Hf1) as [u1 E1].
  set (d1 := new_document this1 s1 u1 w) in E1.
  set (w1 := Mongo.set_Sentences (<[randomId this1 := d1]> (Sentences w)) w)
    in E1.
  assert (Hd1 : readableId d1 = Some (currentId (Sentences w) + 1))
    by (apply new_document_readableId; lia).
  assert (Hf2' : Sentences w1 !! randomId this2 = None).
  { simpl. by rewrite lookup_insert_ne. }
  destruct (sentences_insert_ok this2 v2 s2 w1 Hs2
              (logged_in_set_Sentences _ _ _ Hin2) Hf2') as [u2 E2].
  set (d2 := new_document this2 s2 u2 w1) in E2.
  assert (Hcur : currentId (Sentences w1) = currentId (Sentences w) + 1)
    by (by apply currentId_insert).
  assert (Hd2 : readableId d2 = Some (currentId (Sentences w) + 1 + 1)).
  { unfold d2. rewrite new_document_readableId; rewrite Hcur; [done |].
    unfold MAX_SAFE_INTEGER in *. lia. }
  eexists w1, _, d1, d2, (currentId (Sentences w) + 1).
  split; [exact E1 |]. split; [exact E2 |].
  repeat split; try done.
  - intros n Hn. by rewrite (currentId_max _ _ Hn).
  - intros n Hn. by rewrite <- Hcur, (currentId_max _ _ Hn).
Qed.

(** The same read from the results: whenever two calls in sequence have
    returned, each has added one document and, below the limit, the ids
    are consecutive. *)
Corollary insert_twice_returns_consecutive this1 this2 v1 v2 w w1 w2 :
  readableIds_below (Sentences w) MAX_SAFE_INTEGER →
  sentences_insert this1 v1 w = (Return tt, w1) →
  sentences_insert this2 v2 w1 = (Return tt, w2) →
  ∃ d1 d2 r, inserted w w1 d1 ∧ inserted w1 w2 d2 ∧
             readableId d1 = Some r ∧ readableId d2 = Some (r + 1).
Proof.
  intros Hsafe (s1 & u1 & _ & _ & Hf1 & ->)%sentences_insert_returns
         (s2 & u2 & _ & _ & Hf2 & ->)%sentences_insert_returns.
  assert (Hc : Z.abs (currentId (Sentences w)) < MAX_SAFE_INTEGER)
    by (by apply currentId_below).
  assert (Hd1 : readableId (new_document this1 s1 u1 w)
                = Some (currentId (Sentences w) + 1))
    by (apply new_document_readableId; lia).
  set (d1 := new_document this1 s1 u1 w) in *.
  set (w1 := Mongo.set_Sentences (<[randomId this1 := d1]> (Sentences w)) w)
    in *.
  assert (Hcur : currentId (Sentences w1) = currentId (Sentences w) + 1)
    by (by apply currentId_insert).
  exists d1, (new_document this2 s2 u2 w1), (currentId (Sentences w) + 1).
  split; [done |]. split; [done |]. split; [exact Hd1 |].
  rewrite new_document_readableId; rewrite Hcur; [done |].
  unfold MAX_SAFE_INTEGER in *. lia.
Qed.

(** C9. When every document of the collection has [readableId] 0 or none
    (in particular when the collection is empty), the current id of lines
    49-50 is 0 and a well-shaped sentence from a logged-in caller is
    stored with [readableId] 1. *)
Theorem insert_first_readableId (this : invocation) (v : value) (w : world) :
  is_Some (checkSentence v) → logged_in this w →
  Sentences w !! randomId this = None →
  (∀ i d, Sentences w !! i = Some d →
          readableId d = None ∨ readableId d = Some 0) →
  currentId (Sentences w) = 0 ∧
  ∃ w' d, sentences_insert this v w = (Return tt, w') ∧
          inserted w w' d ∧ readableId d = Some 1.
Proof.
  intros [s Hs] Hin Hf Hzero.
  pose proof (currentId_zero _ Hzero) as Hcur. split; [done |].
  destruct (sentences_insert_ok this v s w Hs Hin Hf) as [u E].
  eexists _, (new_document this s u w). split; [exact E |].
  split; [done |]. simpl. by rewrite Hcur.
Qed.

(** C2, as stated, fails: an input that does not pass the shape check is
    rejected at line 42, before the caller is looked at, with a
    [Match.Error]. *)
Lemma insert_anonymous_malformed_not_authorization :
  ¬ (∀ (this : invocation) (v : value) (w : world),
       userId this = None →
       fst (sentences_insert this v w) = Throw not_authorized).
Proof.
  intros H.
  specialize (H (Invocation None true 0 "id" None) VUndefined
                (World ∅ ∅ [] []) eq_refl).
  discriminate H.
Qed.

(** C2, amended. Without [this.userId], [sentences.insert] throws and
    leaves the server state as it was, whatever the input; the exception
    is the authorization error when the input passes the shape check, and
    the [Match.Error] of the check otherwise. *)
Theorem insert_anonymous_fails (this : invocation) (v : value) (w : world) :
  userId this = None →
  ∃ e, sentences_insert this v w = (Throw e, w) ∧
       (is_Some (checkSentence v) → e = not_authorized) ∧
       (checkSentence v = None → e = MatchError).
Proof.
  intros Hu. eexists. split.
  - apply sentences_insert_anonymous. by rewrite Hu.
  - split.
    + by intros [s ->].
    + by intros ->.
Qed.

(** ** Claims about the annotation methods *)

(** C3. [sentences.addAnnotation] appends nothing: the identifier
    [Sentence] of line 64 is not bound in the module, the call throws a
    [ReferenceError] and the server state is as before, for every
    argument and every state. *)
Theorem addAnnotation_throws_ReferenceError
    (this : invocation) (sentenceId type : string) (value_ : range)
    (w : world) :
  sentences_addAnnotation this sentenceId type value_ w
  = (Throw (ReferenceError "Sentence"), w).
Proof. reflexivity. Qed.

(** What the store does with [$push] and [$pull] on [spanAnnotations]. *)
Lemma addSpanAnnotation_run this id ty b e w :
  sentences_addSpanAnnotation this (VStr id) (VStr ty) (VNum b) (VNum e) w
  = (Return tt,
     Mongo.set_Sentences
       (alter (Mongo.push_spanAnnotations (SpanAnnotation ty b e)) id
              (Sentences w)) w).
Proof. reflexivity. Qed.

Lemma removeSpanAnnotation_run this id ty b e w :
  sentences_removeSpanAnnotation this (VStr id) (VStr ty) (VNum b) (VNum e) w
  = (Return tt,
     Mongo.set_Sentences
       (alter (Mongo.pull_spanAnnotations ty b e) id (Sentences w)) w).
Proof. reflexivity. Qed.

(** The condition of the [$pull] holds of an entry exactly when the entry
    is the triple. *)
Lemma span_matches_iff ty b e a :
  Mongo.span_matches ty b e a = true ↔ a = SpanAnnotation ty b e.
Proof.
  unfold Mongo.span_matches. destruct a as [t x y]. simpl.
  rewrite !andb_true_iff, String.eqb_eq, !Z.eqb_eq.
  split; [intros [[-> ->] ->]; done | intros [= -> -> ->]; done].
Qed.

Lemma pull_filter ty b e (l : list spanAnnotation) :
  List.filter (λ a, negb (Mongo.span_matches ty b e a)) l
  = filter (λ a, a ≠ SpanAnnotation ty b e) l.
Proof.
  induction l as [|a l IH]; [done |].
  cbn [List.filter]. rewrite filter_cons, IH.
  destruct (Mongo.span_matches ty b e a) eqn:Hm; cbn [negb].
  - apply span_matches_iff in Hm. by rewrite decide_False by (by intros []).
  - rewrite decide_True; [done |].
    intros Ha%span_matches_iff. congruence.
Qed.

Lemma filter_absent (a : spanAnnotation) (l : list spanAnnotation) :
  a ∉ l → filter (λ x, x ≠ a) l = l.
Proof.
  induction l as [|x l IH]; [done |].
  intros [Hx Hl]%not_elem_of_cons. rewrite filter_cons.
  rewrite decide_True by done. by rewrite IH.
Qed.

Lemma set_spanAnnotations_same d :
  Mongo.set_spanAnnotations (spanAnnotations d) d = d.
Proof. by destruct d. Qed.

Lemma set_Sentences_same w : Mongo.set_Sentences (Sentences w) w = w.
Proof. by destruct w. Qed.

(** C4, as stated, fails: when the document already holds an entry equal
    to the triple, the [$pull] takes that entry away together with the
    one that was added. *)
Lemma span_add_remove_drops_previous_entry :
  ¬ (∀ (this : invocation) (id ty : string) (b e : Z) (w w1 w2 : world)
       (d d2 : sentenceDoc),
       Sentences w !! id = Some d →
       sentences_addSpanAnnotation this (VStr id) (VStr ty) (VNum b) (VNum e) w
       = (Return tt, w1) →
       sentences_removeSpanAnnotation this (VStr id) (VStr ty) (VNum b)
         (VNum e) w1 = (Return tt, w2) →
       Sentences w2 !! id = Some d2 →
       spanAnnotations d2 = spanAnnotations d).
Proof.
  intros H.
  pose (a := SpanAnnotation "np" 0 1).
  pose (d := SentenceDoc "s1" "a b" [] [a] 0 (Some 1) 0 (Some "u1") None).
  pose (w := World {["s1" := d]} ∅ [] []).
  pose (this := Invocation None true 0 "id" None).
  specialize (H this "s1" "np" 0 1 w _ _ d (Mongo.set_spanAnnotations [] d)
                (lookup_singleton_eq _ _) eq_refl eq_refl).
  assert (Hl : Sentences
                 (sentences_removeSpanAnnotation this (VStr "s1") (VStr "np")
                    (VNum 0) (VNum 1)
                    (sentences_addSpanAnnotation this (VStr "s1") (VStr "np")
                       (VNum 0) (VNum 1) w).2).2 !! "s1"
               = Some (Mongo.set_spanAnnotations [] d)).
  { rewrite addSpanAnnotation_run, removeSpanAnnotation_run. simpl.
    rewrite !lookup_alter_eq. unfold w. simpl.
    by rewrite lookup_singleton_eq. }
  specialize (H Hl). discriminate H.
Qed.

(** C4, amended. On an existing document, [sentences.addSpanAnnotation]
    followed by [sentences.removeSpanAnnotation] with the same triple
    leave in [spanAnnotations] the entries of the array before the add
    that differ from the triple, in their order; when no entry of the
    array before the add equals the triple, the array, and with it the
    whole server state, is as before the add. *)
Theorem span_add_remove_roundtrip
    (this1 this2 : invocation) (id ty : string) (b e : Z) (w : world)
    (d : sentenceDoc) :
  Sentences w !! id = Some d →
  ∃ w1 w2 d1 d2,
    sentences_addSpanAnnotation this1 (VStr id) (VStr ty) (VNum b) (VNum e) w
    = (Return tt, w1) ∧
    Sentences w1 !! id = Some d1 ∧
    spanAnnotations d1 = (spanAnnotations d ++ [SpanAnnotation ty b e])%list ∧
    sentences_removeSpanAnnotation this2 (VStr id) (VStr ty) (VNum b)
      (VNum e) w1 = (Return tt, w2) ∧
    Sentences w2 !! id = Some d2 ∧
    spanAnnotations d2
    = filter (λ a, a ≠ SpanAnnotation ty b e) (spanAnnotations d) ∧
    (SpanAnnotation ty b e ∉ spanAnnotations d →
     spanAnnotations d2 = spanAnnotations d ∧ w2 = w).
Proof.
  intros Hd. set (a := SpanAnnotation ty b e).
  assert (Hd2 : spanAnnotations
                  (Mongo.pull_spanAnnotations ty b e
                     (Mongo.push_spanAnnotations a d))
                = filter (λ x, x ≠ a) (spanAnnotations d)).
  { simpl. rewrite pull_filter, filter_app, filter_cons, filter_nil.
    fold a. rewrite decide_False by (by intros []). by rewrite app_nil_r. }
  eexists _, _, (Mongo.push_spanAnnotations a d),
    (Mongo.pull_spanAnnotations ty b e (Mongo.push_spanAnnotations a d)).
  split; [apply addSpanAnnotation_run |].
  split; [simpl; by rewrite lookup_alter_eq, Hd |].
  split; [done |].
  split; [apply removeSpanAnnotation_run |].
  split; [simpl; by rewrite !lookup_alter_eq, Hd |].
  split; [exact Hd2 |].
  intros Hnot. rewrite Hd2, filter_absent by done. split; [done |].
  transitivity (Mongo.set_Sentences (Sentences w) w);
    [| apply set_Sentences_same].
  unfold Mongo.set_Sentences. simpl. f_equal.
  apply map_eq. intros j. destruct (decide (id = j)) as [<- | Hne].
  - rewrite !lookup_alter_eq, Hd. simpl. f_equal.
    unfold Mongo.pull_spanAnnotations. simpl.
    rewrite pull_filter, filter_app, filter_cons, filter_nil. fold a.
    rewrite decide_False by (by intros []).
    rewrite app_nil_r, filter_absent by done. by destruct d.
  - by rewrite !lookup_alter_ne.
Qed.

(** C6. On an existing document, [sentences.removeSpanAnnotation] returns
    normally and leaves in [spanAnnotations] exactly the entries that do
    not have the given type, begin and end all three: every entry with
    the three values is gone, every other entry stays, in its order and
    as often as before; nothing else of the document and no other
    document changes. *)
Theorem removeSpanAnnotation_exact
    (this : invocation) (id ty : string) (b e : Z) (w : world)
    (d : sentenceDoc) :
  Sentences w !! id = Some d →
  ∃ w' d',
    sentences_removeSpanAnnotation this (VStr id) (VStr ty) (VNum b) (VNum e) w
    = (Return tt, w') ∧
    Sentences w' !! id = Some d' ∧
    (∀ a, a ∈ spanAnnotations d' ↔
          a ∈ spanAnnotations d ∧
          ¬ (span_type a = ty ∧ span_begin a = b ∧ span_end a = e)) ∧
    spanAnnotations d'
    = filter (λ a, ¬ (span_type a = ty ∧ span_begin a = b ∧ span_end a = e))
             (spanAnnotations d) ∧
    d' = Mongo.set_spanAnnotations (spanAnnotations d') d ∧
    (∀ j, j ≠ id → Sentences w' !! j = Sentences w !! j) ∧
    users w' = users w.
Proof.
  intros Hd.
  assert (Hf : List.filter (λ a, negb (Mongo.span_matches ty b e a))
                 (spanAnnotations d)
               = filter (λ a, ¬ (span_type a = ty ∧ span_begin a = b
                                 ∧ span_end a = e)) (spanAnnotations d)).
  { rewrite pull_filter. apply list_filter_iff. intros [t x y]. simpl.
    split.
    - intros Hne (-> & -> & ->). by apply Hne.
    - intros Hne [= -> -> ->]. by apply Hne. }
  eexists _, (Mongo.pull_spanAnnotations ty b e d).
  split; [apply removeSpanAnnotation_run |].
  split; [simpl; by rewrite lookup_alter_eq, Hd |].
  split; [| split; [exact Hf |]].
  - intros a. simpl. rewrite Hf, list_elem_of_filter. tauto.
  - split; [done |]. split; [| done].
    intros j Hj. simpl. by rewrite lookup_alter_ne.
Qed.

(** C7. [sentences.addSpanAnnotation] with an argument of the wrong type
    (a [begin] or [end] that is not a number, a [type] or [sentenceId]
    that is not a string) throws the [Match.Error] of [check], and the
    server state, the collection in particular, is as before the call. *)
Theorem addSpanAnnotation_malformed_rejected
    (this : invocation) (sentenceId type begin end_ : value) (w : world) :
  ¬ is_number begin ∨ ¬ is_number end_ ∨ ¬ is_string type
    ∨ ¬ is_string sentenceId →
  sentences_addSpanAnnotation this sentenceId type begin end_ w
  = (Throw MatchError, w).
Proof.
  intros H. unfold sentences_addSpanAnnotation. run_method.
  destruct sentenceId; simpl; try done.
  destruct begin; simpl; try done.
  destruct end_; simpl; try done.
  destruct type; simpl; try done.
  exfalso. unfold is_number, is_string in H.
  destruct H as [H | [H | [H | H]]]; apply H; eauto.
Qed.

(** ** Claims about [sentences.remove] and the callers *)

(** C5. [sentences.remove] returns normally for every id; when no
    document has the id, the collection has as many documents as before
    (the server state is the same). *)
Theorem remove_never_throws (this : invocation) (id : string) (w : world) :
  ∃ w', sentences_remove this id w = (Return tt, w') ∧
        (Sentences w !! id = None →
         size (Sentences w') = size (Sentences w) ∧ w' = w).
Proof.
  eexists. split; [reflexivity |].
  intros Hid. simpl. rewrite delete_id by done.
  by rewrite set_Sentences_same.
Qed.

(** C10. [sentences.remove], [sentences.removeAnnotation],
    [sentences.addSpanAnnotation] and [sentences.removeSpanAnnotation] do
    not depend on the caller and never throw the authorization error;
    a caller that is not logged in removes an existing document. *)
Theorem mutators_ignore_caller (this : invocation) (w : world) :
  (∀ id,
     fst (sentences_remove this id w) ≠ Throw not_authorized ∧
     ∀ this', sentences_remove this' id w = sentences_remove this id w) ∧
  (∀ id ty v,
     fst (sentences_removeAnnotation this id ty v w) ≠ Throw not_authorized ∧
     ∀ this', sentences_removeAnnotation this' id ty v w
              = sentences_removeAnnotation this id ty v w) ∧
  (∀ id ty b e,
     fst (sentences_addSpanAnnotation this id ty b e w)
       ≠ Throw not_authorized ∧
     ∀ this', sentences_addSpanAnnotation this' id ty b e w
              = sentences_addSpanAnnotation this id ty b e w) ∧
  (∀ id ty b e,
     fst (sentences_removeSpanAnnotation this id ty b e w)
       ≠ Throw not_authorized ∧
     ∀ this', sentences_removeSpanAnnotation this' id ty b e w
              = sentences_removeSpanAnnotation this id ty b e w) ∧
  (∀ id, Sentences (snd (sentences_remove this id w)) !! id = None).
Proof.
  repeat split; try done.
  - unfold sentences_addSpanAnnotation. run_method.
    destruct id, b, e, ty; simpl; done.
  - unfold sentences_removeSpanAnnotation. run_method.
    destruct id, b, e, ty; simpl; done.
  - simpl. apply lookup_delete_eq.
Qed.

(** ** Claim about [sentences.importFromTsv] *)

(** C8. For every url and file name, [sentences.importFromTsv] returns
    normally before any response exists, and neither the call nor the
    callback, whatever error or response the request completes with and
    whatever [TSV.parse] does, changes the collection; the error of the
    request is written to the console. *)
Theorem importFromTsv_never_persists
    (this : invocation) (url : option string) (filename : string)
    (w : world) :
  (∃ w', sentences_importFromTsv this url filename w = (Return tt, w') ∧
         Sentences w' = Sentences w ∧ users w' = users w ∧
         console w' = console w) ∧
  (∀ TSV_parse err resp,
     let w' := snd (importFromTsv_callback TSV_parse err resp w) in
     Sentences w' = Sentences w ∧ users w' = users w ∧
     LogResponse err resp ∈ console w') ∧
  (∀ TSV_parse err resp,
     Sentences (snd (HTTP_complete TSV_parse err resp w)) = Sentences w).
Proof.
  split; [| split].
  - unfold sentences_importFromTsv.
    destruct (isServer this); eexists; (split; [reflexivity | done]).
  - intros TSV_parse err resp.
    unfold importFromTsv_callback. run_method.
    destruct (TSV_parse resp); simpl;
      (split; [done |]; split; [done |]);
      rewrite ?elem_of_app, !list_elem_of_singleton; auto.
  - intros TSV_parse err resp. unfold HTTP_complete.
    destruct (http_pending w); [done |].
    unfold importFromTsv_callback. run_method.
    by destruct (TSV_parse resp).
Qed.

(** ** The theorems at concrete inputs *)

Module Example.

Definition np01 : value :=
  VObj [("type", VStr "np"); ("begin", VNum 0); ("end", VNum 1)].

Definition a_sentence : value :=
  VObj [("sentence", VStr "the cat");
        ("annotations",
         VArr [VObj [("type", VStr "pos");
                     ("value", VObj [("begin", VNum 0); ("end", VNum 3)])]]);
        ("spanAnnotations", VArr [np01]);
        ("zScore", VNum 2)].

Definition doc4 : sentenceDoc :=
  SentenceDoc "s4" "a dog" [] [SpanAnnotation "np" 0 1; SpanAnnotation "vp" 2 3]
              0 (Some 4) 0 (Some "u1") (Some "ann").

Definition doc0 : sentenceDoc :=
  SentenceDoc "s0" "old" [] [] 0 None 0 None None.

Definition ann : user := User (Some "ann").

Definition one_doc : world := World {["s4" := doc4]} {["u1" := ann]} [] [].
Definition legacy_doc : world := World {["s0" := doc0]} {["u1" := ann]} [] [].

Definition call (uid : option string) (id : string) : invocation :=
  Invocation uid true 1000 id None.

Lemma ann_logged_in id w :
  users w !! "u1" = Some ann → logged_in (call (Some "u1") id) w.
Proof. intros H. exists "u1", ann. by repeat split. Qed.

End Example.

(** [sentences.addAnnotation] on an existing document: the call throws
    and the document has the annotations it had. *)
Example addAnnotation_on_existing_document :
  let r := sentences_addAnnotation (Example.call (Some "u1") "x") "s4" "pos"
             (Range 0 3 true) Example.one_doc in
  fst r = Throw (ReferenceError "Sentence") ∧
  annotations <$> Sentences (snd r) !! "s4" = Some [].
Proof. split; reflexivity. Qed.

(** A first insert into an empty collection. *)
Example insert_into_empty_collection :
  let w := World ∅ {["u1" := Example.ann]} [] [] in
  readableId <$>
    Sentences (snd (sentences_insert (Example.call (Some "u1") "s1")
                      Example.a_sentence w)) !! "s1"
  = Some (Some 1).
Proof. vm_compute. reflexivity. Qed.

(** Two inserts after a document with [readableId] 4: ids 5 and 6. *)
Lemma insert_readableId_consecutive_witness :
  is_max_readableId (Sentences Example.one_doc) 4 ∧
  ∃ w1 w2 d1 d2 r,
    sentences_insert (Example.call (Some "u1") "s5") Example.a_sentence
      Example.one_doc = (Return tt, w1) ∧
    sentences_insert (Example.call (Some "u1") "s6") Example.a_sentence w1
    = (Return tt, w2) ∧
    inserted Example.one_doc w1 d1 ∧ inserted w1 w2 d2 ∧
    readableId d1 = Some r ∧ readableId d2 = Some (r + 1) ∧
    (∀ n, is_max_readableId (Sentences Example.one_doc) n → r = n + 1) ∧
    (∀ n, is_max_readableId (Sentences w1) n → r + 1 = n + 1).
Proof.
  split.
  - split.
    + exists "s4", Example.doc4. split; reflexivity.
    + intros i d k Hd. simpl in Hd.
      apply lookup_singleton_Some in Hd as [_ <-]. intros [= <-]. lia.
  - apply insert_readableId_consecutive.
    + intros i d n Hd. simpl in Hd.
      apply lookup_singleton_Some in Hd as [_ <-]. intros [= <-].
      reflexivity.
    + eexists. vm_compute. reflexivity.
    + eexists. vm_compute. reflexivity.
    + by apply Example.ann_logged_in.
    + by apply Example.ann_logged_in.
    + reflexivity.
    + reflexivity.
    + discriminate.
Defined.

(** An insert next to a document without [readableId]. *)
Lemma insert_first_readableId_witness :
  currentId (Sentences Example.legacy_doc) = 0 ∧
  ∃ w' d,
    sentences_insert (Example.call (Some "u1") "s1") Example.a_sentence
      Example.legacy_doc = (Return tt, w') ∧
    inserted Example.legacy_doc w' d ∧ readableId d = Some 1.
Proof.
  apply insert_first_readableId.
  - eexists. vm_compute. reflexivity.
  - by apply Example.ann_logged_in.
  - reflexivity.
  - intros i d Hd. simpl in Hd.
    apply lookup_singleton_Some in Hd as [_ <-]. by left.
Defined.

(** A well-shaped sentence from a caller that is not logged in. *)
Lemma insert_anonymous_fails_witness :
  ∃ e, sentences_insert (Example.call None "s5") Example.a_sentence
         Example.one_doc = (Throw e, Example.one_doc) ∧
       (is_Some (checkSentence Example.a_sentence) → e = not_authorized) ∧
       (checkSentence Example.a_sentence = None → e = MatchError).
Proof. apply insert_anonymous_fails. reflexivity. Defined.

(** Adding and removing a span that the document does not hold. *)
Lemma span_add_remove_roundtrip_witness :
  ∃ w1 w2 d1 d2,
    sentences_addSpanAnnotation (Example.call None "x") (VStr "s4")
      (VStr "pp") (VNum 4) (VNum 6) Example.one_doc = (Return tt, w1) ∧
    Sentences w1 !! "s4" = Some d1 ∧
    spanAnnotations d1
    = (spanAnnotations Example.doc4 ++ [SpanAnnotation "pp" 4 6])%list ∧
    sentences_removeSpanAnnotation (Example.call None "y") (VStr "s4")
      (VStr "pp") (VNum 4) (VNum 6) w1 = (Return tt, w2) ∧
    Sentences w2 !! "s4" = Some d2 ∧
    spanAnnotations d2
    = filter (λ a, a ≠ SpanAnnotation "pp" 4 6)
             (spanAnnotations Example.doc4) ∧
    (SpanAnnotation "pp" 4 6 ∉ spanAnnotations Example.doc4 →
     spanAnnotations d2 = spanAnnotations Example.doc4
     ∧ w2 = Example.one_doc).
Proof. apply span_add_remove_roundtrip. reflexivity. Defined.

(** Removing one of two spans of a document. *)
Lemma removeSpanAnnotation_exact_witness :
  ∃ w' d',
    sentences_removeSpanAnnotation (Example.call None "x") (VStr "s4")
      (VStr "np") (VNum 0) (VNum 1) Example.one_doc = (Return tt, w') ∧
    Sentences w' !! "s4" = Some d' ∧
    (∀ a, a ∈ spanAnnotations d' ↔
          a ∈ spanAnnotations Example.doc4 ∧
          ¬ (span_type a = "np" ∧ span_begin a = 0 ∧ span_end a = 1)) ∧
    spanAnnotations d'
    = filter (λ a, ¬ (span_type a = "np" ∧ span_begin a = 0
                      ∧ span_end a = 1))
             (spanAnnotations Example.doc4) ∧
    d' = Mongo.set_spanAnnotations (spanAnnotations d') Example.doc4 ∧
    (∀ j, j ≠ "s4" →
          Sentences w' !! j = Sentences Example.one_doc !! j) ∧
    users w' = users Example.one_doc.
Proof. apply removeSpanAnnotation_exact. reflexivity. Defined.

(** A [begin] that is the string ["0"]. *)
Lemma addSpanAnnotation_malformed_rejected_witness :
  sentences_addSpanAnnotation (Example.call (Some "u1") "x") (VStr "s4")
    (VStr "np") (VStr "0") (VNum 1) Example.one_doc
  = (Throw MatchError, Example.one_doc).
Proof.
  apply addSpanAnnotation_malformed_rejected.
  left. intros [n Hn]. discriminate Hn.
Defined.

(** Removing an id that no document has. *)
Lemma remove_never_throws_witness :
  Sentences Example.one_doc !! "nobody" = None ∧
  ∃ w', sentences_remove (Example.call None "x") "nobody" Example.one_doc
        = (Return tt, w') ∧
        (Sentences Example.one_doc !! "nobody" = None →
         size (Sentences w') = size (Sentences Example.one_doc)
         ∧ w' = Example.one_doc).
Proof. split; [reflexivity | apply remove_never_throws]. Defined.

(** * The rest of the module *)

(** ** The publication (lines 9-15) *)

(** [Sentences.find({})]: the documents of the collection. *)
Definition find_all (w : world) : list sentenceDoc :=
  (map_to_list (Sentences w)).*2.

(** [sentencesPublication]: what a subscriber receives. The function does
    not read [this.userId]. *)
Definition sentencesPublication (this : invocation) (w : world)
  : list sentenceDoc :=
  find_all w.

(** [Meteor.publish] at line 12 runs under [Meteor.isServer]: the record
    set [name] as the subscriber [this] sees it, [None] when nothing is
    published under this name. *)
Definition publish (this : invocation) (name : string) (w : world)
  : option (list sentenceDoc) :=
  if isServer this && String.eqb name "sentences"
  then Some (sentencesPublication this w)
  else None.

(** ** The method table (line 40) *)

(** A call of one of the methods that [Meteor.methods] registers, with its
    arguments. *)
Inductive request : Type :=
  | Insert (sentence_ : value)
  | Remove (sentenceId : string)
  | AddAnnotation (sentenceId type : string) (value_ : range)
  | RemoveAnnotation (sentenceId type : string) (value_ : range)
  | AddSpanAnnotation (sentenceId type begin end_ : value)
  | RemoveSpanAnnotation (sentenceId type begin end_ : value)
  | ImportFromTsv (url : option string) (filename : string).

Definition method_name (r : request) : string :=
  match r with
  | Insert _ => "sentences.insert"
  | Remove _ => "sentences.remove"
  | AddAnnotation _ _ _ => "sentences.addAnnotation"
  | RemoveAnnotation _ _ _ => "sentences.removeAnnotation"
  | AddSpanAnnotation _ _ _ _ => "sentences.addSpanAnnotation"
  | RemoveSpanAnnotation _ _ _ _ => "sentences.removeSpanAnnotation"
  | ImportFromTsv _ _ => "sentences.importFromTsv"
  end.

Definition methods (this : invocation) (r : request) : method unit :=
  match r with
  | Insert v => sentences_insert this v
  | Remove id => sentences_remove this id
  | AddAnnotation id ty v => sentences_addAnnotation this id ty v
  | RemoveAnnotation id ty v => sentences_removeAnnotation this id ty v
  | AddSpanAnnotation id ty b e => sentences_addSpanAnnotation this id ty b e
  | RemoveSpanAnnotation id ty b e =>
      sentences_removeSpanAnnotation this id ty b e
  | ImportFromTsv url filename => sentences_importFromTsv this url filename
  end.

(** What happens on the server, one thing after the other: a method call,
    or the completion of a pending request. The state after a call that
    throws is the state at the throw. *)
Inductive event : Type :=
  | Call (this : invocation) (r : request)
  | Completion (TSV_parse : option httpResponse → option (list (list string)))
               (err : option string) (resp : option httpResponse).

Definition step (w : world) (e : event) : world :=
  match e with
  | Call this r => snd (methods this r w)
  | Completion TSV_parse err resp => snd (HTTP_complete TSV_parse err resp w)
  end.

Definition run (events : list event) (w : world) : world :=
  fold_left step events w.

(** ** Vocabulary of the further statements *)

(** The EJSON object that carries the fields [s]. *)
Definition encode_range (r : range) : value :=
  VObj (if begin_first r
        then [("begin", VNum (range_begin r)); ("end", VNum (range_end r))]
        else [("end", VNum (range_end r)); ("begin", VNum (range_begin r))]).

Definition encode_annotation (a : annotation) : value :=
  VObj [("type", VStr (ann_type a)); ("value", encode_range (ann_value a))].

Definition encode_spanAnnotation (a : spanAnnotation) : value :=
  VObj [("type", VStr (span_type a)); ("begin", VNum (span_begin a));
        ("end", VNum (span_end a))].

Definition encode_sentence (s : sentenceFields) : value :=
  VObj [("sentence", VStr (sf_sentence s));
        ("annotations", VArr (encode_annotation <$> sf_annotations s));
        ("spanAnnotations",
         VArr (encode_spanAnnotation <$> sf_spanAnnotations s));
        ("zScore", VNum (sf_zScore s))].

Definition sentence_keys : list string :=
  ["sentence"; "annotations"; "spanAnnotations"; "zScore"].

(** No two documents of the collection have the same [readableId]. *)
Definition readableIds_distinct (m : gmap string sentenceDoc) : Prop :=
  ∀ i j d d' n,
    m !! i = Some d → m !! j = Some d' →
    readableId d = Some n → readableId d' = Some n → i = j.

(** Every document is stored under its [_id], has a [readableId] that is
    at least 1, and has an owner with a record in [Meteor.users] whose
    user name is the [username] of the document. *)
Definition documents_stamped (w : world) : Prop :=
  ∀ i d, Sentences w !! i = Some d →
    _id d = i ∧
    (∃ n, readableId d = Some n ∧ 1 ≤ n) ∧
    (∃ uid u, owner d = Some uid ∧ uid ≠ "" ∧ users w !! uid = Some u ∧
              username d = user_username u).

(** [d'] is [d] but for its two annotation arrays. *)
Definition same_but_annotations (d d' : sentenceDoc) : Prop :=
  _id d' = _id d ∧ sentence d' = sentence d ∧ zScore d' = zScore d ∧
  readableId d' = readableId d ∧ createdAt d' = createdAt d ∧
  owner d' = owner d ∧ username d' = username d.

(** The ways in which an event changes the state. *)
Inductive transition (w : world) : world → Prop :=
  | transition_same w' :
      Sentences w' = Sentences w → users w' = users w → transition w w'
  | transition_insert this s uid u :
      userId this = Some uid → uid ≠ "" → users w !! uid = Some u →
      Sentences w !! randomId this = None →
      transition w
        (Mongo.set_Sentences
           (<[randomId this := new_document this s u w]> (Sentences w)) w)
  | transition_delete id :
      transition w (Mongo.set_Sentences (delete id (Sentences w)) w)
  | transition_alter id f :
      (∀ d, same_but_annotations d (f d)) →
      transition w (Mongo.set_Sentences (alter f id (Sentences w)) w).

(** ** The shape check *)

Lemma has_key_elem_of ks k : has_key ks k = true ↔ k ∈ ks.
Proof.
  unfold has_key. rewrite existsb_exists. split.
  - intros (x & Hx%list_elem_of_In & ->%String.eqb_eq). done.
  - intros Hk. exists k. by rewrite String.eqb_refl, <- list_elem_of_In.
Qed.

Lemma check_Object_Some ks v o :
  check_Object ks v = Some o →
  v = VObj o ∧ ∀ k, k ∈ keys o ↔ k ∈ ks.
Proof.
  destruct v; simpl; try done.
  destruct (forallb _ _ && forallb _ _) eqn:H; [| done].
  intros [= <-]. split; [done |].
  apply andb_true_iff in H as [H1 H2].
  rewrite forallb_forall in H1, H2. intros k. split.
  - intros Hk%list_elem_of_In. by apply has_key_elem_of, H1.
  - intros Hk%list_elem_of_In. by apply has_key_elem_of, H2.
Qed.

(** A value that passes [checkSentence] is an object whose keys are the
    four keys of the pattern, no more and no less. *)
Lemma checkSentence_exact_keys v s :
  checkSentence v = Some s →
  ∃ o, v = VObj o ∧ ∀ k, k ∈ keys o ↔ k ∈ sentence_keys.
Proof.
  unfold checkSentence. intros H.
  destruct (check_Object _ v) as [o|] eqn:Ho; [| done].
  apply check_Object_Some in Ho as [-> Hk]. eauto.
Qed.

(** [sentences.insert] refuses, for every caller, whatever is not an
    object with exactly the keys [sentence], [annotations],
    [spanAnnotations] and [zScore]: a client cannot send a [readableId],
    an [owner], a [username], a [createdAt] or an [_id] of its own. *)
Theorem insert_rejects_other_keys
    (this : invocation) (v : value) (w : world) :
  (∀ o, v = VObj o → ¬ ∀ k, k ∈ keys o ↔ k ∈ sentence_keys) →
  sentences_insert this v w = (Throw MatchError, w).
Proof.
  intros H. destruct (checkSentence v) as [s|] eqn:Hs.
  - destruct (checkSentence_exact_keys v s Hs) as (o & -> & Hk).
    by destruct (H o eq_refl).
  - unfold sentences_insert. run_method. by rewrite Hs.
Qed.

Lemma check_range_encode r : check_range (encode_range r) = Some r.
Proof. by destruct r as [b e []]. Qed.

Lemma check_annotation_encode a :
  check_annotation (encode_annotation a) = Some a.
Proof. by destruct a as [t [b e []]]. Qed.

Lemma check_spanAnnotation_encode a :
  check_spanAnnotation (encode_spanAnnotation a) = Some a.
Proof. by destruct a. Qed.

(** The object that carries the fields [s] passes the check, which gives
    back [s]: every sentence of the data model, with arrays of any
    length, is accepted. *)
Theorem checkSentence_encode (s : sentenceFields) :
  checkSentence (encode_sentence s) = Some s.
Proof.
  destruct s as [t a sp z]. unfold checkSentence, encode_sentence. simpl.
  unfold field. simpl. unfold check_Array.
  rewrite (mapM_fmap_Some check_annotation encode_annotation a)
    by apply check_annotation_encode. simpl.
  rewrite (mapM_fmap_Some check_spanAnnotation encode_spanAnnotation sp)
    by apply check_spanAnnotation_encode. done.
Qed.

Lemma mapM_None_elem {A} (p : value → option A) (items : list value) x :
  x ∈ items → p x = None → mapM p items = None.
Proof.
  intros [i Hi]%list_elem_of_lookup Hp.
  destruct (mapM p items) as [k|] eqn:Hk; [| done].
  apply mapM_Some in Hk.
  destruct (Forall2_lookup_l _ _ _ _ _ Hk Hi) as (y & _ & Hy). congruence.
Qed.

(** One entry of [annotations] or of [spanAnnotations] that does not have
    the shape of its pattern makes [sentences.insert] refuse the whole
    sentence, for every caller. *)
Theorem insert_rejects_bad_entry
    (this : invocation) (o : list (string * value)) (items : list value)
    (x : value) (w : world) :
  get o "annotations" = Some (VArr items) ∧ check_annotation x = None
  ∨ get o "spanAnnotations" = Some (VArr items)
    ∧ check_spanAnnotation x = None →
  x ∈ items →
  sentences_insert this (VObj o) w = (Throw MatchError, w).
Proof.
  intros H Hx.
  assert (E : checkSentence (VObj o) = None).
  { unfold checkSentence.
    destruct (check_Object _ (VObj o)) as [o'|] eqn:Ho; [| done].
    apply check_Object_Some in Ho as [[= <-] _]. simpl.
    unfold field.
    destruct (get o "sentence" ≫= check_String); [| done]. simpl.
    destruct H as [[Hg Hp] | [Hg Hp]].
    - rewrite Hg. simpl. by rewrite (mapM_None_elem _ _ x Hx Hp).
    - destruct (get o "annotations" ≫= check_Array check_annotation);
        [| done].
      simpl. rewrite Hg. simpl. by rewrite (mapM_None_elem _ _ x Hx Hp). }
  unfold sentences_insert. run_method. by rewrite E.
Qed.

(** ** More on [sentences.insert] *)

(** The outcome of a call, test by test. *)
Lemma insert_outcome (this : invocation) (v : value) (w : world) :
  (checkSentence v = None ∧
   sentences_insert this v w = (Throw MatchError, w)) ∨
  (∃ s, checkSentence v = Some s ∧
        truthy_string (userId this) = false ∧
        sentences_insert this v w = (Throw not_authorized, w)) ∨
  (∃ s uid, checkSentence v = Some s ∧
        userId this = Some uid ∧ uid ≠ "" ∧ users w !! uid = None ∧
        sentences_insert this v w = (Throw TypeError, w)) ∨
  (∃ s uid u, checkSentence v = Some s ∧
        userId this = Some uid ∧ uid ≠ "" ∧ users w !! uid = Some u ∧
        is_Some (Sentences w !! randomId this) ∧
        sentences_insert this v w
        = (Throw (DuplicateKeyError (randomId this)), w)) ∨
  (∃ s uid u, checkSentence v = Some s ∧
        userId this = Some uid ∧ uid ≠ "" ∧ users w !! uid = Some u ∧
        Sentences w !! randomId this = None ∧
        sentences_insert this v w
        = (Return tt,
           Mongo.set_Sentences
             (<[randomId this := new_document this s u w]> (Sentences w)) w)).
Proof.
  unfold sentences_insert. run_method.
  destruct (checkSentence v) as [s|] eqn:Hs; simpl; [| by left].
  right. destruct (userId this) as [uid|] eqn:Hid; simpl;
    [| left; by exists s].
  destruct (String.eqb_spec uid "") as [-> | Hne]; simpl;
    [left; by exists s |].
  right. destruct (users w !! uid) as [u|] eqn:Hu; simpl;
    [| left; by exists s, uid].
  right. destruct (Sentences w !! randomId this) eqn:Hf.
  - left. exists s, uid, u. by repeat split.
  - right. exists s, uid, u. repeat split; try done.
    unfold new_document, currentId. by rewrite Hid.
Qed.

(** The five ways in which a call ends, in the order in which the method
    tests for them: the shape check (line 42), the caller (line 45), the
    caller's record in [Meteor.users] (line 57), the store (line 52). A
    call that throws leaves the state as it was. *)
Theorem sentences_insert_cases (this : invocation) (v : value) (w : world) :
  (checkSentence v = None ∧
   sentences_insert this v w = (Throw MatchError, w)) ∨
  (∃ s, checkSentence v = Some s ∧
        truthy_string (userId this) = false ∧
        sentences_insert this v w = (Throw not_authorized, w)) ∨
  (∃ s uid, checkSentence v = Some s ∧
        userId this = Some uid ∧ uid ≠ "" ∧ users w !! uid = None ∧
        sentences_insert this v w = (Throw TypeError, w)) ∨
  (∃ s uid u, checkSentence v = Some s ∧
        userId this = Some uid ∧ uid ≠ "" ∧ users w !! uid = Some u ∧
        is_Some (Sentences w !! randomId this) ∧
        sentences_insert this v w
        = (Throw (DuplicateKeyError (randomId this)), w)) ∨
  (∃ s uid u, checkSentence v = Some s ∧
        userId this = Some uid ∧ uid ≠ "" ∧ users w !! uid = Some u ∧
        Sentences w !! randomId this = None ∧
        sentences_insert this v w
        = (Return tt,
           Mongo.set_Sentences
             (<[randomId this := new_document this s u w]> (Sentences w)) w)).
Proof.
  destruct (insert_outcome this v w) as [H | [H | [H | [H | H]]]]; auto 6.
Qed.

(** A call that returns has added one document: its content is the checked
    input, its [owner] is the caller, its [username] the caller's user
    name in [Meteor.users], its [createdAt] the time of the call; every
    other document, [Meteor.users], the console and the pending requests
    are as before. *)
Theorem insert_stores
    (this : invocation) (v : value) (w w' : world) :
  sentences_insert this v w = (Return tt, w') →
  ∃ s uid u d,
    checkSentence v = Some s ∧ userId this = Some uid ∧
    users w !! uid = Some u ∧
    Sentences w !! randomId this = None ∧
    Sentences w' !! randomId this = Some d ∧
    _id d = randomId this ∧
    sentence d = sf_sentence s ∧ annotations d = sf_annotations s ∧
    spanAnnotations d = sf_spanAnnotations s ∧ zScore d = sf_zScore s ∧
    owner d = Some uid ∧ username d = user_username u ∧
    createdAt d = now this ∧
    (∀ j, j ≠ randomId this → Sentences w' !! j = Sentences w !! j) ∧
    size (Sentences w') = S (size (Sentences w)) ∧
    users w' = users w ∧ console w' = console w ∧
    http_pending w' = http_pending w.
Proof.
  intros H.
  destruct (insert_outcome this v w)
    as [[_ E] | [(s & _ & _ & E) | [(s & uid & _ & _ & _ & _ & E)
       | [(s & uid & u & _ & _ & _ & _ & _ & E)
         | (s & uid & u & Hs & Hid & Hne & Hu & Hf & E)]]]];
    rewrite E in H; try discriminate H.
  injection H as <-.
  exists s, uid, u, (new_document this s u w).
  split; [done |]. split; [done |]. split; [done |]. split; [done |].
  split; [simpl; by rewrite lookup_insert_eq |].
  do 6 (split; [done |]). split; [by simpl |]. split; [done |].
  split; [intros j Hj; simpl; by rewrite lookup_insert_ne |].
  split; [simpl; by rewrite map_size_insert_None |].
  done.
Qed.

(** A logged-in caller whose [userId] has no document in [Meteor.users]
    cannot insert: line 57 reads [username] of [undefined], the call
    throws a [TypeError] and nothing is stored. *)
Theorem insert_without_user_record
    (this : invocation) (v : value) (w : world) (uid : string) :
  is_Some (checkSentence v) → userId this = Some uid → uid ≠ "" →
  users w !! uid = None →
  sentences_insert this v w = (Throw TypeError, w).
Proof.
  intros [s Hs] Hid Hne Hu.
  destruct (insert_outcome this v w)
    as [[Hs' _] | [(s' & _ & Ht & _) | [(s' & uid' & _ & _ & _ & _ & E)
       | [(s' & uid' & u & _ & Hid' & _ & Hu' & _)
         | (s' & uid' & u & _ & Hid' & _ & Hu' & _)]]]].
  - congruence.
  - rewrite Hid in Ht. simpl in Ht.
    apply String.eqb_neq in Hne. by rewrite Hne in Ht.
  - done.
  - congruence.
  - congruence.
Qed.

(** ** What every sequence of events keeps *)

Lemma same_but_annotations_set_span l d :
  same_but_annotations d (Mongo.set_spanAnnotations l d).
Proof. by repeat split. Qed.

Lemma same_but_annotations_set_ann l d :
  same_but_annotations d (Mongo.set_annotations l d).
Proof. by repeat split. Qed.

Lemma transition_refl w : transition w w.
Proof. by apply transition_same. Qed.

(** Every event is one of the four transitions. *)
Lemma step_transition w e : transition w (step w e).
Proof.
  destruct e as [this [v | id | id ty r | id ty r | id ty b e | id ty b e
                      | url filename] | TSV_parse err resp]; simpl.
  - destruct (insert_outcome this v w)
      as [[_ E] | [(s & _ & _ & E) | [(s & uid & _ & _ & _ & _ & E)
         | [(s & uid & u & _ & _ & _ & _ & _ & E)
           | (s & uid & u & _ & Hid & Hne & Hu & Hf & E)]]]];
      rewrite E; simpl; try apply transition_refl.
    by eapply transition_insert.
  - apply transition_delete.
  - apply transition_refl.
  - apply transition_alter. intros d. apply same_but_annotations_set_ann.
  - unfold sentences_addSpanAnnotation. run_method.
    destruct id, b, e, ty; simpl; try apply transition_refl.
    apply transition_alter. intros d. apply same_but_annotations_set_span.
  - unfold sentences_removeSpanAnnotation. run_method.
    destruct id, b, e, ty; simpl; try apply transition_refl.
    apply transition_alter. intros d. apply same_but_annotations_set_span.
  - unfold sentences_importFromTsv.
    destruct (isServer this); by apply transition_same.
  - unfold HTTP_complete. destruct (http_pending w); [apply transition_refl |].
    unfold importFromTsv_callback. run_method.
    destruct (TSV_parse resp); by apply transition_same.
Qed.

Lemma currentId_nonneg m :
  (∀ i d k, m !! i = Some d → readableId d = Some k → 0 ≤ k) →
  0 ≤ currentId m.
Proof.
  intros H. unfold currentId.
  destruct (Mongo.first_desc _) as [a|] eqn:Ha; [| done].
  apply first_desc_Some in Ha as [[j Hj]%elem_of_docs _]. simpl.
  destruct (readableId a) as [k|] eqn:Hk; [| done].
  pose proof (H j a k Hj Hk). simpl. destruct (Z.eqb_spec k 0); lia.
Qed.

Lemma lookup_alter_inv (f : sentenceDoc → sentenceDoc) id
    (m : gmap string sentenceDoc) i d :
  (∀ x, same_but_annotations x (f x)) →
  alter f id m !! i = Some d →
  ∃ d0, m !! i = Some d0 ∧ same_but_annotations d0 d.
Proof.
  intros Hf. destruct (decide (id = i)) as [-> | Hne].
  - rewrite lookup_alter_eq. destruct (m !! i) as [d0|]; [| done].
    intros [= <-]. eauto.
  - rewrite lookup_alter_ne by done. intros Hd. exists d.
    split; [done |]. by repeat split.
Qed.

(** An event raises the highest [readableId] by at most one. *)
Lemma below_transition w w' bound :
  transition w w' → 0 < bound → bound ≤ 2 ^ 53 →
  readableIds_below (Sentences w) bound →
  readableIds_below (Sentences w') (bound + 1).
Proof.
  intros [w0 Hs _ | this s uid u Hid Hne Hu Hf | id | id f Hsame] Hb Hb' Hw.
  - rewrite Hs. intros i d n Hd Hn. pose proof (Hw i d n Hd Hn). lia.
  - intros i d n. simpl.
    destruct (decide (randomId this = i)) as [<- | Hi].
    + rewrite lookup_insert_eq. intros [= <-].
      pose proof (currentId_below _ _ Hb Hw) as Hc.
      rewrite new_document_readableId
        by (unfold MAX_SAFE_INTEGER; lia).
      intros [= <-]. lia.
    + rewrite lookup_insert_ne by done. intros Hd Hn.
      pose proof (Hw i d n Hd Hn). lia.
  - intros i d n. simpl. intros [_ Hd]%lookup_delete_Some Hn.
    pose proof (Hw i d n Hd Hn). lia.
  - intros i d n. simpl. intros (d0 & H0 & S0)%lookup_alter_inv; [| done].
    destruct S0 as (_ & _ & _ & -> & _). intros Hn.
    pose proof (Hw i d0 n H0 Hn). lia.
Qed.

Lemma distinct_transition w w' bound :
  transition w w' → 0 < bound → bound ≤ 2 ^ 53 →
  readableIds_below (Sentences w) bound →
  readableIds_distinct (Sentences w) → readableIds_distinct (Sentences w').
Proof.
  intros [w0 Hs _ | this s uid u Hid Hne Hu Hf | id | id f Hsame] Hb Hb' Hw Hd.
  - by rewrite Hs.
  - pose proof (currentId_below _ _ Hb Hw) as Hc.
    assert (Hr : readableId (new_document this s u w)
                 = Some (currentId (Sentences w) + 1))
      by (apply new_document_readableId; unfold MAX_SAFE_INTEGER; lia).
    intros i j d d' n. simpl.
    destruct (decide (randomId this = i)) as [<- | Hi],
             (decide (randomId this = j)) as [<- | Hj]; [done | | |].
    + rewrite lookup_insert_eq, lookup_insert_ne by done.
      intros [= <-] Hd'. rewrite Hr. intros [= <-] Hn.
      pose proof (currentId_upper _ _ _ _ Hd' Hn). lia.
    + rewrite lookup_insert_eq, lookup_insert_ne by done.
      intros Hd' [= <-] Hn. rewrite Hr. intros [= <-].
      pose proof (currentId_upper _ _ _ _ Hd' Hn). lia.
    + rewrite !lookup_insert_ne by done. apply Hd.
  - intros i j d d' n. simpl.
    intros [_ H1]%lookup_delete_Some [_ H2]%lookup_delete_Some.
    by apply Hd.
  - intros i j d d' n. simpl.
    intros (d0 & H0 & S0)%lookup_alter_inv (d1 & H1 & S1)%lookup_alter_inv;
      [| done | done].
    destruct S0 as (_ & _ & _ & -> & _), S1 as (_ & _ & _ & -> & _).
    by apply Hd.
Qed.

Lemma stamped_transition w w' :
  transition w w' → documents_stamped w → documents_stamped w'.
Proof.
  intros [w0 Hs Hu | this s uid u Hid Hne Hu Hf | id | id f Hsame] Hw.
  - intros i d. rewrite Hs, Hu. apply Hw.
  - intros i d. simpl. destruct (decide (randomId this = i)) as [<- | Hi].
    + rewrite lookup_insert_eq. intros [= <-]. split; [done |]. split.
      * eexists. split; [reflexivity |].
        apply js_add_one_pos, currentId_nonneg. intros j x k Hx Hk.
        destruct (Hw j x Hx) as (_ & (n & Hn & ?) & _).
        rewrite Hk in Hn. injection Hn as ->. lia.
      * exists uid, u. by repeat split.
    + rewrite lookup_insert_ne by done. apply Hw.
  - intros i d. simpl. intros [_ H]%lookup_delete_Some. by apply Hw.
  - intros i d. simpl. intros (d0 & H0 & S0)%lookup_alter_inv; [| done].
    destruct S0 as (-> & _ & _ & -> & _ & -> & ->). by apply Hw.
Qed.

(** A run of events that starts with every [readableId] below [bound]. *)
Lemma run_below_distinct events : ∀ bound w,
  0 < bound → bound + Z.of_nat (length events) ≤ 2 ^ 53 →
  readableIds_below (Sentences w) bound →
  readableIds_distinct (Sentences w) →
  readableIds_below (Sentences (run events w))
                    (bound + Z.of_nat (length events))
  ∧ readableIds_distinct (Sentences (run events w)).
Proof.
  induction events as [|e events IH]; intros bound w Hb Hlen Hw Hd.
  - simpl. by rewrite Z.add_0_r.
  - cbn [run fold_left]. fold (run events (step w e)).
    rewrite length_cons, Nat2Z.inj_succ in *.
    pose proof (step_transition w e) as Ht.
    destruct (IH (bound + 1) (step w e)) as [H1 H2]; [lia | lia | | |].
    + eapply below_transition; [done | done | lia | done].
    + eapply distinct_transition; [done | exact Hb | lia | done | done].
    + split; [| done]. by replace (bound + Z.succ (Z.of_nat (length events)))
        with (bound + 1 + Z.of_nat (length events)) by lia.
Qed.

(** Whatever the clients call (with arguments of the types of the data
    model where a method does not check them) and in whatever order, and
    whenever the pending requests complete, two documents never get the
    same [readableId], provided no two had the same to begin with and
    the [readableId]s stay within the integers that doubles count
    exactly: each [readableId] at the start, plus the number of events,
    is below 2^53 in magnitude. The calls run one after the other. *)
Theorem run_keeps_readableIds_distinct (events : list event) (w : world) :
  Z.of_nat (length events) < 2 ^ 53 →
  readableIds_below (Sentences w) (2 ^ 53 - Z.of_nat (length events)) →
  readableIds_distinct (Sentences w) →
  readableIds_distinct (Sentences (run events w)).
Proof.
  intros Hlen Hw Hd.
  apply (run_below_distinct events (2 ^ 53 - Z.of_nat (length events)) w);
    [lia | lia | done | done].
Qed.

(** From an empty collection, every sequence of events leads to a state
    in which every document is stored under its [_id], has a [readableId]
    of at least 1, and has an owner with a record in [Meteor.users] and
    that record's user name; [Meteor.users] itself is never written. When
    the events are fewer than 2^53, no other document has the same
    [readableId]. *)
Theorem run_from_empty_collection
    (events : list event) (us : gmap string user) (c : list logEntry)
    (p : list string) :
  let w := run events (World ∅ us c p) in
  documents_stamped w ∧
  (Z.of_nat (length events) < 2 ^ 53 → readableIds_distinct (Sentences w)) ∧
  users w = us.
Proof.
  assert (H : ∀ w, documents_stamped w →
              documents_stamped (run events w)
              ∧ users (run events w) = users w).
  { induction events as [|e events IH]; intros w Hw; [done |].
    simpl. pose proof (step_transition w e) as Ht.
    destruct (IH (step w e) (stamped_transition _ _ Ht Hw)) as (H1 & H2).
    split; [done |]. rewrite H2. destruct Ht; by simpl. }
  simpl. destruct (H (World ∅ us c p)) as [H1 H2].
  { intros i d Hd. simpl in Hd. by rewrite lookup_empty in Hd. }
  split; [done |]. split; [| done]. intros Hlen.
  apply (run_below_distinct events 1 (World ∅ us c p)); [lia | lia | |].
  - intros i d n Hd. simpl in Hd. by rewrite lookup_empty in Hd.
  - intros i j d d' n Hd. simpl in Hd. by rewrite lookup_empty in Hd.
Qed.

(** ** What a call that throws leaves behind *)

(** The methods that contain a test: a [check], a [throw], or a read that
    can fail. The other three hand their arguments to the store or to the
    HTTP client, whose own errors are not part of the module. *)
Definition has_tests (r : request) : Prop :=
  match r with
  | Insert _ | AddAnnotation _ _ _
  | AddSpanAnnotation _ _ _ _ | RemoveSpanAnnotation _ _ _ _ => True
  | Remove _ | RemoveAnnotation _ _ _ | ImportFromTsv _ _ => False
  end.

(** The exceptions that the tests of a method throw. *)
Definition may_throw (this : invocation) (r : request) (e : exn) : Prop :=
  match r with
  | Insert _ =>
      e = MatchError ∨ e = not_authorized ∨ e = TypeError
      ∨ e = DuplicateKeyError (randomId this)
  | AddAnnotation _ _ _ => e = ReferenceError "Sentence"
  | AddSpanAnnotation _ _ _ _ | RemoveSpanAnnotation _ _ _ _ => e = MatchError
  | Remove _ | RemoveAnnotation _ _ _ | ImportFromTsv _ _ => True
  end.

(** When [sentences.insert], [sentences.addAnnotation],
    [sentences.addSpanAnnotation] or [sentences.removeSpanAnnotation]
    throws, nothing has changed: every test of the method comes before
    its one write. [sentences.insert] throws the [Match.Error] of the
    shape check, the authorization error, the [TypeError] of line 57 or
    the store's duplicate-key error; [sentences.addAnnotation] the
    [ReferenceError]; the two span methods the [Match.Error] of their
    checks. *)
Theorem methods_throw_unchanged
    (this : invocation) (r : request) (w w' : world) (e : exn) :
  has_tests r →
  methods this r w = (Throw e, w') → w' = w ∧ may_throw this r e.
Proof.
  destruct r as [v | id | id ty v | id ty v | id ty b en | id ty b en
                 | url filename]; simpl; try done; intros _.
  - destruct (insert_outcome this v w)
      as [[_ E] | [(s & _ & _ & E) | [(s & uid & _ & _ & _ & _ & E)
         | [(s & uid & u & _ & _ & _ & _ & _ & E)
           | (s & uid & u & _ & _ & _ & _ & _ & E)]]]];
      rewrite E; intros [= <- <-]; auto 6.
  - intros [= <- <-]. done.
  - unfold sentences_addSpanAnnotation. run_method.
    destruct id, b, en, ty; simpl; intros [= <- <-]; done.
  - unfold sentences_removeSpanAnnotation. run_method.
    destruct id, b, en, ty; simpl; intros [= <- <-]; done.
Qed.

(** ** More on [sentences.remove] *)

(** Removing the document that was inserted last gives its [readableId]
    to the next insert: a [readableId] identifies a document only as long
    as the document with the highest one is not removed. *)
Theorem readableId_reused_after_remove
    (this1 this2 this3 : invocation) (v1 v3 : value) (w : world) :
  is_Some (checkSentence v1) → is_Some (checkSentence v3) →
  logged_in this1 w → logged_in this3 w →
  Sentences w !! randomId this1 = None →
  Sentences w !! randomId this3 = None →
  ∃ w1 w2 w3 d1 d3,
    sentences_insert this1 v1 w = (Return tt, w1) ∧
    Sentences w1 !! randomId this1 = Some d1 ∧
    sentences_remove this2 (randomId this1) w1 = (Return tt, w2) ∧
    sentences_insert this3 v3 w2 = (Return tt, w3) ∧
    Sentences w3 !! randomId this3 = Some d3 ∧
    is_Some (readableId d1) ∧ readableId d3 = readableId d1.
Proof.
  intros [s1 Hs1] [s3 Hs3] Hin1 Hin3 Hf1 Hf3.
  destruct (sentences_insert_ok this1 v1 s1 w Hs1 Hin1 Hf1) as [u1 E1].
  destruct (sentences_insert_ok this3 v3 s3 w Hs3 Hin3 Hf3) as [u3 E3].
  eexists _, w, _, (new_document this1 s1 u1 w), (new_document this3 s3 u3 w).
  split; [exact E1 |]. split; [simpl; by rewrite lookup_insert_eq |].
  split.
  { unfold sentences_remove, Mongo.remove. simpl.
    rewrite delete_insert_id by done. by destruct w. }
  split; [exact E3 |]. split; [simpl; by rewrite lookup_insert_eq |].
  split; [by eexists | done].
Qed.

(** Removing an existing document takes away that document and no other;
    a second removal changes nothing. *)
Theorem remove_existing
    (this : invocation) (id : string) (w : world) (d : sentenceDoc) :
  Sentences w !! id = Some d →
  ∃ w', sentences_remove this id w = (Return tt, w') ∧
        Sentences w' !! id = None ∧
        (∀ j, j ≠ id → Sentences w' !! j = Sentences w !! j) ∧
        S (size (Sentences w')) = size (Sentences w) ∧
        users w' = users w ∧
        (∀ this', sentences_remove this' id w' = (Return tt, w')).
Proof.
  intros Hd. eexists. split; [reflexivity |]. simpl.
  split; [apply lookup_delete_eq |].
  split; [intros j Hj; by rewrite lookup_delete_ne |].
  split.
  { rewrite <- (insert_delete_id (Sentences w) id d Hd) at 2.
    rewrite map_size_insert_None; [done | apply lookup_delete_eq]. }
  split; [done |].
  intros this'. unfold sentences_remove, Mongo.remove. simpl.
  by rewrite delete_delete_eq.
Qed.

(** ** More on the annotation methods *)

Lemma alter_missing (f : sentenceDoc → sentenceDoc) id
    (m : gmap string sentenceDoc) :
  m !! id = None → alter f id m = m.
Proof.
  intros H. apply map_eq. intros j. destruct (decide (id = j)) as [<- | Hne].
  - by rewrite lookup_alter_eq, H.
  - by rewrite lookup_alter_ne.
Qed.

(** With an id that no document has, the three methods that update a
    document return normally and change nothing: a client is not told
    that the sentence does not exist. *)
Theorem update_of_missing_document_is_silent
    (this : invocation) (id ty : string) (b e : Z) (r : range) (w : world) :
  Sentences w !! id = None →
  sentences_addSpanAnnotation this (VStr id) (VStr ty) (VNum b) (VNum e) w
  = (Return tt, w) ∧
  sentences_removeSpanAnnotation this (VStr id) (VStr ty) (VNum b) (VNum e) w
  = (Return tt, w) ∧
  sentences_removeAnnotation this id ty r w = (Return tt, w).
Proof.
  intros H.
  rewrite addSpanAnnotation_run, removeSpanAnnotation_run.
  unfold sentences_removeAnnotation, Mongo.update.
  rewrite !alter_missing by done. by rewrite set_Sentences_same.
Qed.

(** [sentences.addSpanAnnotation] on an existing document puts one entry
    at the end of [spanAnnotations], also when an equal entry is already
    there and whatever the two numbers are; [annotations], the other
    fields, the other documents and the number of documents stay. *)
Theorem addSpanAnnotation_appends
    (this : invocation) (id ty : string) (b e : Z) (w : world)
    (d : sentenceDoc) :
  Sentences w !! id = Some d →
  ∃ w' d',
    sentences_addSpanAnnotation this (VStr id) (VStr ty) (VNum b) (VNum e) w
    = (Return tt, w') ∧
    Sentences w' !! id = Some d' ∧
    spanAnnotations d' = (spanAnnotations d ++ [SpanAnnotation ty b e])%list ∧
    annotations d' = annotations d ∧ same_but_annotations d d' ∧
    (∀ j, j ≠ id → Sentences w' !! j = Sentences w !! j) ∧
    dom (Sentences w') = dom (Sentences w) ∧
    users w' = users w.
Proof.
  intros Hd.
  eexists _, (Mongo.push_spanAnnotations (SpanAnnotation ty b e) d).
  split; [apply addSpanAnnotation_run |]. simpl.
  split; [by rewrite lookup_alter_eq, Hd |].
  do 2 (split; [done |]). split; [by repeat split |].
  split; [intros j Hj; by rewrite lookup_alter_ne |].
  split; [| done].
  apply set_eq. intros j. rewrite !elem_of_dom.
  destruct (decide (id = j)) as [<- | Hne].
  - rewrite lookup_alter_eq, Hd. simpl. split; eauto.
  - by rewrite lookup_alter_ne.
Qed.

Lemma annotation_matches_iff ty r a :
  Mongo.annotation_matches ty r a = true ↔ a = Annotation ty r.
Proof.
  unfold Mongo.annotation_matches.
  destruct a as [t [x y o]], r as [x' y' o']. simpl.
  rewrite !andb_true_iff, String.eqb_eq, !Z.eqb_eq, Bool.eqb_true_iff.
  split; [intros [[[-> ->] ->] ->]; done | intros [= -> -> -> ->]; done].
Qed.

Lemma pull_annotations_filter ty r (l : list annotation) :
  List.filter (λ a, negb (Mongo.annotation_matches ty r a)) l
  = filter (λ a, ¬ (ann_type a = ty ∧ ann_value a = r)) l.
Proof.
  induction l as [|a l IH]; [done |].
  cbn [List.filter]. rewrite filter_cons, IH.
  destruct (Mongo.annotation_matches ty r a) eqn:Hm; cbn [negb].
  - apply annotation_matches_iff in Hm as ->. simpl.
    by rewrite decide_False by (intros H; by apply H).
  - rewrite decide_True; [done |]. intros [<- <-].
    assert (Mongo.annotation_matches (ann_type a) (ann_value a) a = true)
      by (apply annotation_matches_iff; by destruct a).
    congruence.
Qed.

(** [sentences.removeAnnotation] on an existing document leaves in
    [annotations] the entries that do not have both the given type and
    the given value, in their order and as often as before, and changes
    neither [spanAnnotations] nor anything else. The value of an entry is
    the given value when it is the same embedded document: an entry with
    the same two numbers under [end] and [begin] in the other order
    stays. *)
Theorem removeAnnotation_exact
    (this : invocation) (id ty : string) (r : range) (w : world)
    (d : sentenceDoc) :
  Sentences w !! id = Some d →
  ∃ w' d',
    sentences_removeAnnotation this id ty r w = (Return tt, w') ∧
    Sentences w' !! id = Some d' ∧
    annotations d'
    = filter (λ a, ¬ (ann_type a = ty ∧ ann_value a = r)) (annotations d) ∧
    (∀ a, a ∈ annotations d' ↔
          a ∈ annotations d ∧ ¬ (ann_type a = ty ∧ ann_value a = r)) ∧
    spanAnnotations d' = spanAnnotations d ∧ same_but_annotations d d' ∧
    (∀ j, j ≠ id → Sentences w' !! j = Sentences w !! j) ∧
    users w' = users w.
Proof.
  intros Hd. eexists _, (Mongo.pull_annotations ty r d).
  split; [reflexivity |]. simpl.
  split; [by rewrite lookup_alter_eq, Hd |].
  split; [apply pull_annotations_filter |].
  split.
  { intros a. rewrite pull_annotations_filter, list_elem_of_filter. tauto. }
  split; [done |]. split; [by repeat split |].
  split; [intros j Hj; by rewrite lookup_alter_ne | done].
Qed.

(** [sentences.removeSpanAnnotation] with an argument of the wrong type
    throws the [Match.Error] of [check] and changes nothing. *)
Theorem removeSpanAnnotation_malformed_rejected
    (this : invocation) (sentenceId type begin end_ : value) (w : world) :
  ¬ is_number begin ∨ ¬ is_number end_ ∨ ¬ is_string type
    ∨ ¬ is_string sentenceId →
  sentences_removeSpanAnnotation this sentenceId type begin end_ w
  = (Throw MatchError, w).
Proof.
  intros H. unfold sentences_removeSpanAnnotation. run_method.
  destruct sentenceId; simpl; try done.
  destruct begin; simpl; try done.
  destruct end_; simpl; try done.
  destruct type; simpl; try done.
  exfalso. unfold is_number, is_string in H.
  destruct H as [H | [H | [H | H]]]; apply H; eauto.
Qed.

Lemma pull_spanAnnotations_idemp ty b e d :
  Mongo.pull_spanAnnotations ty b e (Mongo.pull_spanAnnotations ty b e d)
  = Mongo.pull_spanAnnotations ty b e d.
Proof.
  unfold Mongo.pull_spanAnnotations. simpl. unfold Mongo.set_spanAnnotations.
  simpl. f_equal. rewrite !pull_filter.
  rewrite list_filter_filter. apply list_filter_iff. tauto.
Qed.

(** [sentences.removeSpanAnnotation] twice, with any arguments, is
    [sentences.removeSpanAnnotation] once: the second call ends as the
    first did and leaves the state of the first. *)
Theorem removeSpanAnnotation_idempotent
    (this this' : invocation) (sentenceId type begin end_ : value)
    (w : world) :
  let first :=
    sentences_removeSpanAnnotation this sentenceId type begin end_ w in
  sentences_removeSpanAnnotation this' sentenceId type begin end_ (snd first)
  = first.
Proof.
  unfold sentences_removeSpanAnnotation. run_method.
  destruct sentenceId as [| | | |id| |]; simpl; try done.
  destruct begin as [| | |b| | |]; simpl; try done.
  destruct end_ as [| | |e| | |]; simpl; try done.
  destruct type as [| | | |ty| |]; simpl; try done.
  unfold Mongo.set_Sentences. simpl. do 2 f_equal.
  apply map_eq. intros j. destruct (decide (id = j)) as [<- | Hne].
  - rewrite !lookup_alter_eq. destruct (Sentences w !! id); simpl; [| done].
    by rewrite pull_spanAnnotations_idemp.
  - by rewrite !lookup_alter_ne.
Qed.

(** ** More on [sentences.importFromTsv] *)

(** On the client the method does nothing. On the server it issues one
    request, to [base/filename]: [base] is the [url] argument when that is
    a non-empty string, and otherwise, for an empty string as for no
    argument, the configured default, or the text [undefined] when none
    is configured. *)
Theorem importFromTsv_request
    (this : invocation) (url : option string) (filename : string)
    (w : world) :
  (isServer this = false →
   sentences_importFromTsv this url filename w = (Return tt, w)) ∧
  (isServer this = true →
   ∃ base,
     sentences_importFromTsv this url filename w
     = (Return tt,
        set_http_pending (http_pending w ++ [base ++ "/" ++ filename]) w) ∧
     (∀ u, url = Some u → u ≠ "" → base = u) ∧
     (url = None ∨ url = Some "" →
      base = default "undefined" (defaultUrl this))) ∧
  sentences_importFromTsv this (Some "") filename w
  = sentences_importFromTsv this None filename w.
Proof.
  unfold sentences_importFromTsv. split; [by intros -> |].
  split; [| done]. intros ->. eexists. split; [reflexivity |]. split.
  - intros u -> Hu%String.eqb_neq. simpl. by rewrite Hu.
  - by intros [-> | ->].
Qed.

(** ** The publication *)

(** On the server every subscriber, logged in or not, receives every
    document of the collection, whoever owns it; nothing is published on
    the client or under another name. *)
Theorem publication_is_whole_collection
    (this : invocation) (name : string) (w : world) :
  (isServer this = true →
   ∃ docs, publish this "sentences" w = Some docs ∧
           (∀ d, d ∈ docs ↔ ∃ i, Sentences w !! i = Some d) ∧
           length docs = size (Sentences w) ∧
           ∀ this', isServer this' = true →
                    publish this' "sentences" w = Some docs) ∧
  (isServer this = false ∨ name ≠ "sentences" → publish this name w = None).
Proof.
  unfold publish, sentencesPublication, find_all. split.
  - intros ->. eexists. split; [reflexivity |].
    split; [apply elem_of_docs |].
    split; [by rewrite length_fmap, length_map_to_list |].
    by intros this' ->.
  - intros [-> | Hn%String.eqb_neq]; [done |].
    rewrite Hn. by rewrite andb_false_r.
Qed.

(** A document that one caller inserts is published to every subscriber
    on the server, one that is not logged in included, with its owner. *)
Theorem inserted_document_is_published
    (this subscriber : invocation) (v : value) (w w' : world) :
  sentences_insert this v w = (Return tt, w') →
  isServer subscriber = true →
  ∃ docs d, publish subscriber "sentences" w' = Some docs ∧ d ∈ docs ∧
            _id d = randomId this ∧ owner d = userId this.
Proof.
  intros H Hsrv.
  destruct (insert_outcome this v w)
    as [[_ E] | [(s & _ & _ & E) | [(s & uid & _ & _ & _ & _ & E)
       | [(s & uid & u & _ & _ & _ & _ & _ & E)
         | (s & uid & u & Hs & Hid & Hne & Hu & Hf & E)]]]];
    rewrite E in H; try discriminate H.
  injection H as <-.
  unfold publish, sentencesPublication, find_all. rewrite Hsrv. simpl.
  eexists _, (new_document this s u w). split; [reflexivity |].
  split; [| done].
  apply elem_of_docs. exists (randomId this). apply lookup_insert_eq.
Qed.

(** ** The order of the keys of a sentence *)

Lemma get_Permutation o o' k :
  NoDup (keys o) → o ≡ₚ o' → get o k = get o' k.
Proof.
  intros Hnd Hp. induction Hp as [| [k1 v1] l l' Hp IH
                                   | [k1 v1] [k2 v2] l | l l' l'' H1 IH1 H2 IH2].
  - done.
  - simpl. apply NoDup_cons in Hnd as [_ Hnd]. by rewrite IH.
  - simpl. apply NoDup_cons in Hnd as [Hn _].
    destruct (String.eqb_spec k2 k), (String.eqb_spec k1 k); try done.
    subst. destruct Hn. simpl. left.
  - rewrite IH1 by done. apply IH2.
    unfold keys in *. change (NoDup (fst <$> l')).
    change (NoDup (fst <$> l)) in Hnd. by rewrite <- H1.
Qed.

Lemma forallb_Permutation {A} (f : A → bool) l l' :
  l ≡ₚ l' → forallb f l = forallb f l'.
Proof.
  induction 1 as [| x l l' _ IH | x y l | l l' l'' _ IH1 _ IH2]; simpl.
  - done.
  - by rewrite IH.
  - by destruct (f x), (f y).
  - by rewrite IH1.
Qed.

Lemma has_key_Permutation ks ks' k :
  ks ≡ₚ ks' → has_key ks k = has_key ks' k.
Proof.
  intros Hp. apply eq_true_iff_eq. rewrite !has_key_elem_of. by rewrite Hp.
Qed.

Lemma check_Object_Permutation ks o o' :
  o ≡ₚ o' →
  check_Object ks (VObj o) = Some o ∧ check_Object ks (VObj o') = Some o'
  ∨ check_Object ks (VObj o) = None ∧ check_Object ks (VObj o') = None.
Proof.
  intros Hp. simpl.
  assert (Hk : keys o ≡ₚ keys o') by (by apply fmap_Permutation).
  rewrite <- (forallb_Permutation _ _ _ Hk).
  assert (He : forallb (has_key (keys o')) ks = forallb (has_key (keys o)) ks).
  { induction ks as [|k ks IH]; [done |]. simpl.
    by rewrite IH, (has_key_Permutation _ _ k Hk). }
  rewrite He. destruct (forallb _ _ && forallb _ _); auto.
Qed.

(** The fields of a sentence may come in any order: two objects with the
    same bindings, each key bound once, fare the same in the shape check,
    and so in [sentences.insert]. *)
Theorem checkSentence_key_order
    (this : invocation) (o o' : list (string * value)) (w : world) :
  NoDup (keys o) → o ≡ₚ o' →
  checkSentence (VObj o) = checkSentence (VObj o') ∧
  sentences_insert this (VObj o) w = sentences_insert this (VObj o') w.
Proof.
  intros Hnd Hp.
  assert (E : checkSentence (VObj o) = checkSentence (VObj o')).
  { unfold checkSentence.
    pose proof (check_Object_Permutation sentence_keys o o' Hp) as H.
    unfold sentence_keys in H. destruct H as [[-> ->] | [-> ->]]; [| done].
    simpl. unfold field. by rewrite !(get_Permutation o o'). }
  split; [done |]. unfold sentences_insert. run_method. by rewrite E.
Qed.

(** ** The further theorems at concrete inputs *)

Module Example2.

(** A sentence that names its own [readableId]. *)
Definition with_readableId : list (string * value) :=
  [("sentence", VStr "the cat"); ("annotations", VArr []);
   ("spanAnnotations", VArr []); ("zScore", VNum 2);
   ("readableId", VNum 7)].

Definition fields : list (string * value) :=
  [("sentence", VStr "the cat"); ("annotations", VArr []);
   ("spanAnnotations", VArr [Example.np01]); ("zScore", VNum 2)].

Definition fields_swapped : list (string * value) :=
  [("annotations", VArr []); ("sentence", VStr "the cat");
   ("spanAnnotations", VArr [Example.np01]); ("zScore", VNum 2)].

Definition ann_call (id : string) : invocation :=
  Example.call (Some "u1") id.

Definition bob_call (id : string) : invocation :=
  Example.call (Some "u2") id.

(** A document with three annotations: the second has the numbers of the
    first with [end] before [begin], the third another type. *)
Definition doc7 : sentenceDoc :=
  SentenceDoc "s7" "the cat sat"
    [Annotation "pos" (Range 0 3 true); Annotation "pos" (Range 0 3 false);
     Annotation "ner" (Range 0 3 true); Annotation "pos" (Range 0 3 true)]
    [SpanAnnotation "np" 0 1] 0 (Some 7) 0 (Some "u1") (Some "ann").

Definition annotated : world :=
  World {["s7" := doc7]} {["u1" := Example.ann]} [] [].

Definition session : list event :=
  [Call (ann_call "s5") (Insert Example.a_sentence);
   Call (Example.call None "x") (Remove "s4");
   Call (ann_call "s6") (Insert Example.a_sentence);
   Call (Example.call None "x")
        (AddSpanAnnotation (VStr "s6") (VStr "np") (VNum 0) (VNum 1))].

End Example2.

(** A sentence with a [readableId] of its own. *)
Lemma insert_rejects_other_keys_witness :
  sentences_insert (Example2.ann_call "s5") (VObj Example2.with_readableId)
    Example.one_doc
  = (Throw MatchError, Example.one_doc).
Proof.
  apply insert_rejects_other_keys. intros o [= <-] H.
  assert (Hk : "readableId" ∈ sentence_keys).
  { apply H. unfold keys. simpl. rewrite !elem_of_cons. auto 10. }
  unfold sentence_keys in Hk.
  repeat (apply elem_of_cons in Hk as [Hk | Hk]; [discriminate Hk |]).
  by apply elem_of_nil in Hk.
Defined.

(** An insert next to one document. *)
Lemma insert_stores_witness :
  let this := Example2.ann_call "s5" in
  let w := Example.one_doc in
  let w' := snd (sentences_insert this Example.a_sentence w) in
  ∃ s uid u d,
    checkSentence Example.a_sentence = Some s ∧ userId this = Some uid ∧
    users w !! uid = Some u ∧
    Sentences w !! randomId this = None ∧
    Sentences w' !! randomId this = Some d ∧
    _id d = randomId this ∧
    sentence d = sf_sentence s ∧ annotations d = sf_annotations s ∧
    spanAnnotations d = sf_spanAnnotations s ∧ zScore d = sf_zScore s ∧
    owner d = Some uid ∧ username d = user_username u ∧
    createdAt d = now this ∧
    (∀ j, j ≠ randomId this → Sentences w' !! j = Sentences w !! j) ∧
    size (Sentences w') = S (size (Sentences w)) ∧
    users w' = users w ∧ console w' = console w ∧
    http_pending w' = http_pending w.
Proof. intros this w w'. apply insert_stores. reflexivity. Defined.

(** A caller whose id is not in [Meteor.users]. *)
Lemma insert_without_user_record_witness :
  sentences_insert (Example2.bob_call "s5") Example.a_sentence
    Example.one_doc
  = (Throw TypeError, Example.one_doc).
Proof.
  apply (insert_without_user_record _ _ _ "u2").
  - eexists. vm_compute. reflexivity.
  - reflexivity.
  - discriminate.
  - reflexivity.
Defined.

(** Two inserts, a removal and an update after one document. *)
Lemma run_keeps_readableIds_distinct_witness :
  readableIds_distinct (Sentences (run Example2.session Example.one_doc)).
Proof.
  apply run_keeps_readableIds_distinct.
  - reflexivity.
  - intros i d n Hd. simpl in Hd.
    apply lookup_singleton_Some in Hd as [_ <-]. intros [= <-].
    reflexivity.
  - intros i j d d' n Hi Hj _ _.
    simpl in Hi, Hj. apply lookup_singleton_Some in Hi as [<- _].
    by apply lookup_singleton_Some in Hj as [<- _].
Defined.

(** A span with a [begin] that is no number. *)
Lemma methods_throw_unchanged_witness :
  let r := AddSpanAnnotation (VStr "s4") (VStr "np") VNull (VNum 1) in
  Example.one_doc = Example.one_doc ∧
  may_throw (Example.call None "x") r MatchError.
Proof.
  intros r.
  apply (methods_throw_unchanged (Example.call None "x") r Example.one_doc).
  - exact I.
  - reflexivity.
Defined.

(** Insert, remove the new document, insert again. *)
Lemma readableId_reused_after_remove_witness :
  let this1 := Example2.ann_call "s5" in
  let this2 := Example.call None "x" in
  let this3 := Example2.ann_call "s6" in
  ∃ w1 w2 w3 d1 d3,
    sentences_insert this1 Example.a_sentence Example.one_doc
    = (Return tt, w1) ∧
    Sentences w1 !! randomId this1 = Some d1 ∧
    sentences_remove this2 (randomId this1) w1 = (Return tt, w2) ∧
    sentences_insert this3 Example.a_sentence w2 = (Return tt, w3) ∧
    Sentences w3 !! randomId this3 = Some d3 ∧
    is_Some (readableId d1) ∧ readableId d3 = readableId d1.
Proof.
  intros this1 this2 this3. apply readableId_reused_after_remove.
  - eexists. vm_compute. reflexivity.
  - eexists. vm_compute. reflexivity.
  - by apply Example.ann_logged_in.
  - by apply Example.ann_logged_in.
  - reflexivity.
  - reflexivity.
Defined.

(** Removing the one document of a collection. *)
Lemma remove_existing_witness :
  ∃ w', sentences_remove (Example.call None "x") "s4" Example.one_doc
        = (Return tt, w') ∧
        Sentences w' !! "s4" = None ∧
        (∀ j, j ≠ "s4" → Sentences w' !! j = Sentences Example.one_doc !! j) ∧
        S (size (Sentences w')) = size (Sentences Example.one_doc) ∧
        users w' = users Example.one_doc ∧
        (∀ this', sentences_remove this' "s4" w' = (Return tt, w')).
Proof. apply (remove_existing _ _ _ Example.doc4). reflexivity. Defined.

(** Updates of a document that does not exist. *)
Lemma update_of_missing_document_is_silent_witness :
  let this := Example.call None "x" in
  sentences_addSpanAnnotation this (VStr "gone") (VStr "np") (VNum 0)
    (VNum 1) Example.one_doc = (Return tt, Example.one_doc) ∧
  sentences_removeSpanAnnotation this (VStr "gone") (VStr "np") (VNum 0)
    (VNum 1) Example.one_doc = (Return tt, Example.one_doc) ∧
  sentences_removeAnnotation this "gone" "np" (Range 0 3 true) Example.one_doc
  = (Return tt, Example.one_doc).
Proof.
  intros this. apply update_of_missing_document_is_silent. reflexivity.
Defined.

(** Adding a span that the document already has. *)
Lemma addSpanAnnotation_appends_witness :
  ∃ w' d',
    sentences_addSpanAnnotation (Example.call None "x") (VStr "s4")
      (VStr "np") (VNum 0) (VNum 1) Example.one_doc = (Return tt, w') ∧
    Sentences w' !! "s4" = Some d' ∧
    spanAnnotations d'
    = (spanAnnotations Example.doc4 ++ [SpanAnnotation "np" 0 1])%list ∧
    annotations d' = annotations Example.doc4 ∧
    same_but_annotations Example.doc4 d' ∧
    (∀ j, j ≠ "s4" → Sentences w' !! j = Sentences Example.one_doc !! j) ∧
    dom (Sentences w') = dom (Sentences Example.one_doc) ∧
    users w' = users Example.one_doc.
Proof. apply addSpanAnnotation_appends. reflexivity. Defined.

(** Removing an annotation that the document holds twice, next to one
    with the keys of its value in the other order and one of another
    type. *)
Lemma removeAnnotation_exact_witness :
  ∃ w' d',
    sentences_removeAnnotation (Example.call None "x") "s7" "pos"
      (Range 0 3 true) Example2.annotated = (Return tt, w') ∧
    Sentences w' !! "s7" = Some d' ∧
    annotations d'
    = filter (λ a, ¬ (ann_type a = "pos" ∧ ann_value a = Range 0 3 true))
             (annotations Example2.doc7) ∧
    (∀ a, a ∈ annotations d' ↔
          a ∈ annotations Example2.doc7
          ∧ ¬ (ann_type a = "pos" ∧ ann_value a = Range 0 3 true)) ∧
    spanAnnotations d' = spanAnnotations Example2.doc7 ∧
    same_but_annotations Example2.doc7 d' ∧
    (∀ j, j ≠ "s7" → Sentences w' !! j = Sentences Example2.annotated !! j) ∧
    users w' = users Example2.annotated.
Proof. apply removeAnnotation_exact. reflexivity. Defined.

(** What stays of the three annotations. *)
Example removeAnnotation_on_doc7 :
  annotations <$>
    Sentences (snd (sentences_removeAnnotation (Example.call None "x") "s7"
                      "pos" (Range 0 3 true) Example2.annotated)) !! "s7"
  = Some [Annotation "pos" (Range 0 3 false);
          Annotation "ner" (Range 0 3 true)].
Proof. vm_compute. reflexivity. Qed.

(** The shape check keeps the order of the keys of [value]. *)
Example check_annotation_key_order :
  check_annotation
    (VObj [("type", VStr "pos");
           ("value", VObj [("end", VNum 3); ("begin", VNum 0)])])
  = Some (Annotation "pos" (Range 0 3 false)).
Proof. reflexivity. Qed.

(** An [end] that is [null]. *)
Lemma removeSpanAnnotation_malformed_rejected_witness :
  sentences_removeSpanAnnotation (Example.call (Some "u1") "x") (VStr "s4")
    (VStr "np") (VNum 0) VNull Example.one_doc
  = (Throw MatchError, Example.one_doc).
Proof.
  apply removeSpanAnnotation_malformed_rejected.
  right. left. intros [n Hn]. discriminate Hn.
Defined.

(** An insert by one user, seen by a subscriber that is not logged in. *)
Lemma inserted_document_is_published_witness :
  let this := Example2.ann_call "s5" in
  let w' := snd (sentences_insert this Example.a_sentence Example.one_doc) in
  ∃ docs d, publish (Example.call None "x") "sentences" w' = Some docs ∧
            d ∈ docs ∧ _id d = randomId this ∧ owner d = userId this.
Proof.
  intros this w'.
  apply (inserted_document_is_published this _ Example.a_sentence
           Example.one_doc); reflexivity.
Defined.

(** The first two fields of a sentence the other way round. *)
Lemma checkSentence_key_order_witness :
  let this := Example2.ann_call "s5" in
  checkSentence (VObj Example2.fields)
  = checkSentence (VObj Example2.fields_swapped) ∧
  sentences_insert this (VObj Example2.fields) Example.one_doc
  = sentences_insert this (VObj Example2.fields_swapped) Example.one_doc.
Proof.
  intros this. apply checkSentence_key_order.
  - unfold keys. simpl.
    repeat (apply NoDup_cons; split;
            [rewrite ?elem_of_cons, elem_of_nil; intros H;
             repeat (destruct H as [H | H]; [discriminate H |]); done |]).
    apply NoDup_nil_2.
  - apply Permutation_swap.
Defined.

(** A span without [end] among the spans of a sentence. *)
Lemma insert_rejects_bad_entry_witness :
  let bad := VObj [("type", VStr "np"); ("begin", VNum 0)] in
  let o := [("sentence", VStr "the cat"); ("annotations", VArr []);
            ("spanAnnotations", VArr [Example.np01; bad]);
            ("zScore", VNum 2)] in
  sentences_insert (Example2.ann_call "s5") (VObj o) Example.one_doc
  = (Throw MatchError, Example.one_doc).
Proof.
  intros bad o. apply (insert_rejects_bad_entry _ o [Example.np01; bad] bad).
  - right. split; reflexivity.
  - apply list_elem_of_further, list_elem_of_here.
Defined.
